(** * Quick Environment Switcher: the profile store and the switch planner

    A shallow embedding of [envswitch.py] and the properties of its store
    (add / get / delete / switch / history) and of the command list that
    [switch_environment] builds.

    What is modelled and how:
    - the two JSON documents under [~/.envswitch] are the two optional
      lists of a [World]: [None] is "the file does not exist";
      [{"environments": [...]}] and [{"switches": [...]}] are kept as the
      lists they wrap.  [json.dumps] followed by [json.loads] returns the
      same strings, integers, [None], lists and objects, so a file holds
      the value that was written;
    - everything the program asks of its host (the clock, [str.lower],
      [pathlib], [sys.platform]) is a field of the class [Host]; nothing
      is assumed of these fields;
    - a function that reads or writes the files or the clock is a
      computation in the monad [M]: it takes a world and either returns a
      value and a world or raises, leaving the world of that moment;
    - [Path.exists] and [Path.resolve] can raise ([OSError] for a path the
      system refuses to examine, [ValueError] for a path with a NUL).  The
      fields [path_exists] and [resolve] of [Host] are their answers when
      they answer, and [add_environment] and [switch_environment] below
      are the functions on those answers; the class [Faults] says which
      queries raise, and the module [Raw] has the two functions with the
      exceptions;
    - console output ([print]) and the directory [~/.envswitch] itself
      are left out: the directory is there as soon as a file is. *)

From Stdlib Require Import ZArith String Ascii Lia.
From stdpp Require Import base option list strings pretty.

Open Scope string_scope.
Open Scope list_scope.

(** ** Stored values *)

(** One element of ["environments"]; the fields are the keys of the
    dictionary built in [add_environment]. *)
Module Env.
Record t : Type := mk {
  name : string;
  project_path : string;
  python_env : option string;
  node_version : option string;
  env_vars : list (string * string);
  shell_commands : list string;
  description : string;
  created : string;
  last_used : option string;
  use_count : Z
}.

(** [e["last_used"] = ts; e["use_count"] += 1] *)
Definition used (ts : string) (e : t) : t :=
  mk (name e) (project_path e) (python_env e) (node_version e)
     (env_vars e) (shell_commands e) (description e) (created e)
     (Some ts) (use_count e + 1).
End Env.

(** One element of ["switches"]. *)
Module Switch.
Record t : Type := mk {
  environment : string;
  timestamp : string
}.
End Switch.

(** ** The host *)

Class Host : Type := {
  (** [s.lower()] *)
  str_lower : string -> string;
  (** the value of the k-th evaluation of [datetime.now().isoformat()]
      since the world began (k counts from 0) *)
  isoformat_now : nat -> string;
  (** [str(Path(p).resolve())], when it returns (see [Faults]) *)
  resolve : string -> string;
  (** [Path(p)], kept as the string [str] gives for it *)
  Path : string -> string;
  (** [p / c] *)
  joinpath : string -> string -> string;
  (** the answer of [p.exists()] for the paths of the profiles, when it
      answers (see [Faults]) *)
  path_exists : string -> bool;
  (** [sys.platform == 'win32'] *)
  win32 : bool
}.

(** ** The world and the monad *)

Record World : Type := mkWorld {
  envs_file : option (list Env.t);          (* ENVS_FILE *)
  history_file : option (list Switch.t);    (* HISTORY_FILE *)
  ticks : nat                               (* clock readings taken so far *)
}.

Inductive exn : Type :=
| FileNotFoundError (file : string)
| OSError (strerror : string)
| ValueError (message : string).

(** A call returns a value or raises; either way it leaves a world. *)
Inductive outcome (A : Type) : Type :=
| Returned (a : A) (w : World)
| Raised (e : exn) (w : World).
Arguments Returned {A} a w.
Arguments Raised {A} e w.

Definition M (A : Type) : Type := World -> outcome A.

#[global] Instance M_ret : MRet M := fun A a w => Returned a w.

#[global] Instance M_bind : MBind M := fun A B k m w =>
  match m w with
  | Returned a w' => k a w'
  | Raised e w' => Raised e w'
  end.

(** [if not b: m], the value of [m] dropped. *)
Definition unless {A : Type} (b : bool) (m : M A) : M unit :=
  if b then mret tt else (m;; mret tt).

(** Python's [l[start:]] for an integer [start]. *)
Definition slice_from {A : Type} (start : Z) (l : list A) : list A :=
  let n := Z.of_nat (length l) in
  let lo := if (start <? 0)%Z then Z.max (start + n) 0 else Z.min start n in
  drop (Z.to_nat lo) l.

(** The double quote, as a one-character string. *)
Definition dquote : string := String "034"%char EmptyString.

(** Truth value of an optional string: [None] and the empty string are
    false. *)
Definition truthy (o : option string) : option string :=
  match o with
  | Some s => if decide (s = "") then None else Some s
  | None => None
  end.

Section Program.
Context {host : Host}.

(** *** File and clock primitives *)

Definition envs_exists : M bool :=
  fun w => Returned (bool_decide (is_Some (envs_file w))) w.

Definition history_exists : M bool :=
  fun w => Returned (bool_decide (is_Some (history_file w))) w.

(** [json.loads(ENVS_FILE.read_text())["environments"]] *)
Definition read_envs : M (list Env.t) :=
  fun w => match envs_file w with
           | Some l => Returned l w
           | None => Raised (FileNotFoundError "environments.json") w
           end.

(** [json.loads(HISTORY_FILE.read_text())["switches"]] *)
Definition read_history : M (list Switch.t) :=
  fun w => match history_file w with
           | Some l => Returned l w
           | None => Raised (FileNotFoundError "history.json") w
           end.

Definition write_envs (l : list Env.t) : M unit :=
  fun w => Returned tt (mkWorld (Some l) (history_file w) (ticks w)).

Definition write_history (l : list Switch.t) : M unit :=
  fun w => Returned tt (mkWorld (envs_file w) (Some l) (ticks w)).

(** [datetime.now().isoformat()] *)
Definition now : M string :=
  fun w => Returned (isoformat_now (ticks w))
                    (mkWorld (envs_file w) (history_file w) (S (ticks w))).

(** *** Core functions *)

Definition init_config : M bool :=
  e ← envs_exists;
  unless e (write_envs []);;
  h ← history_exists;
  unless h (write_history []);;
  mret true.

Definition load_environments : M (list Env.t) :=
  e ← envs_exists;
  unless e init_config;;
  read_envs.

Definition save_environments (data : list Env.t) : M unit :=
  write_envs data.

(** [env["name"].lower() == name.lower()] *)
Definition same_name (name : string) (env : Env.t) : Prop :=
  str_lower (Env.name env) = str_lower name.

#[global] Instance same_name_dec name env : Decision (same_name name env).
Proof. unfold same_name. apply _. Defined.

Definition add_environment (name project_path : string)
    (python_env node_version : option string)
    (env_vars : option (list (string * string)))
    (shell_commands : option (list string))
    (description : string) : M bool :=
  data ← load_environments;
  match list_find (same_name name) data with
  | Some _ => mret false
  | None =>
      let project_path := resolve project_path in
      created ← now;
      let environment :=
        Env.mk name project_path python_env node_version
               (default [] env_vars)
               (default [] shell_commands)
               description created None 0 in
      save_environments (data ++ [environment]);;
      mret true
  end.

Definition get_environment (name : string) : M (option Env.t) :=
  data ← load_environments;
  mret (snd <$> list_find (same_name name) data).

Definition delete_environment (name : string) : M bool :=
  data ← load_environments;
  match list_find (same_name name) data with
  | Some (i, env) =>
      save_environments (delete i data);;
      mret true
  | None => mret false
  end.

(** The loop of [switch_environment] that updates the usage statistics
    of the first profile with the given name; the clock is read when
    that profile is reached. *)
Fixpoint update_usage (name : string) (data : list Env.t) : M (list Env.t) :=
  match data with
  | [] => mret []
  | e :: rest =>
      if decide (same_name name e) then
        ts ← now;
        mret (Env.used ts e :: rest)
      else
        rest' ← update_usage name rest;
        mret (e :: rest')
  end.

Definition log_switch (env_name : string) : M unit :=
  h ← history_exists;
  unless h init_config;;
  history ← read_history;
  ts ← now;
  write_history (slice_from (-100) (history ++ [Switch.mk env_name ts])).

(** The value of [activate_script] in [switch_environment], for a
    [python_path] that exists. *)
Definition activate_script (python_path : string) : string :=
  if win32 then
    let bat := joinpath (joinpath python_path "Scripts") "activate.bat" in
    if path_exists bat then bat
    else joinpath (joinpath python_path "Scripts") "Activate.ps1"
  else joinpath (joinpath python_path "bin") "activate".

(** The activation lines of [switch_environment]. *)
Definition activation (env : Env.t) : list string :=
  match truthy (Env.python_env env) with
  | Some p =>
      let python_path := Path p in
      if path_exists python_path then
        let script := activate_script python_path in
        if path_exists script then
          [ "# Activate Python environment";
            if win32 then script else "source " +:+ script ]
        else []
      else []
  | None => []
  end.

(** The lines that set the environment variables. *)
Definition exports (env : Env.t) : list string :=
  match Env.env_vars env with
  | [] => []
  | vars =>
      "# Set environment variables" ::
      map (fun kv =>
             if win32 then "set " +:+ fst kv +:+ "=" +:+ snd kv
             else "export " +:+ fst kv +:+ "=" +:+ dquote +:+ snd kv +:+ dquote)
          vars
  end.

(** The custom command lines. *)
Definition custom (env : Env.t) : list string :=
  match Env.shell_commands env with
  | [] => []
  | cmds => "# Custom commands" :: cmds
  end.

(** The part of [switch_environment] under "Generate commands": the
    list [commands] it builds from the profile it fetched. *)
Definition switch_commands (env : Env.t) : list string :=
  ["cd " +:+ Env.project_path env] ++ activation env ++ exports env ++ custom env.

Definition switch_environment (name : string) : M (option (list string)) :=
  env ← get_environment name;
  match env with
  | None => mret None
  | Some env =>
      data ← load_environments;
      data' ← update_usage name data;
      save_environments data';;
      log_switch name;;
      mret (Some (switch_commands env))
  end.

Definition get_history (limit : Z) : M (list Switch.t) :=
  h ← history_exists;
  if negb h return M (list Switch.t) then mret []
  else
    history ← read_history;
    mret (slice_from (- limit) history).

(** Successive calls of [switch_environment], one per name. *)
Fixpoint switch_each (names : list string) : M (list (option (list string))) :=
  match names with
  | [] => mret []
  | n :: ns =>
      r ← switch_environment n;
      rs ← switch_each ns;
      mret (r :: rs)
  end.

End Program.

(** ** Views of a world *)

(** What [load_environments] returns: the stored profiles, none when the
    file is absent. *)
Definition environments (w : World) : list Env.t := default [] (envs_file w).

(** The history log, empty when the file is absent. *)
Definition switches (w : World) : list Switch.t := default [] (history_file w).

(** The world [load_environments] leaves behind: the same one, or the one
    [init_config] sets up when there is no environments file. *)
Definition after_load (w : World) : World :=
  match envs_file w with
  | Some _ => w
  | None => mkWorld (Some []) (Some (switches w)) (ticks w)
  end.

(** The last [n] elements of a list. *)
Definition lastn {A : Type} (n : nat) (l : list A) : list A :=
  drop (length l - n) l.

Section Notions.
Context {host : Host}.

(** [name'] is [name] up to the case of its letters. *)
Definition case_variant (name name' : string) : Prop :=
  str_lower name' = str_lower name.

(** No two profiles share a case-folded name. *)
Definition unique_names (l : list Env.t) : Prop :=
  NoDup (map (fun e => str_lower (Env.name e)) l).



End Notions.

(** ** A POSIX host for the examples

    ASCII case folding, a clock whose readings are all different, paths
    that are already absolute and normalised, and a disk that holds one
    virtual environment, [/opt/venv]. *)
Module Posix.

Definition lower_ascii (c : ascii) : ascii :=
  let n := nat_of_ascii c in
  if (65 <=? n)%nat && (n <=? 90)%nat then ascii_of_nat (n + 32) else c.

Fixpoint lower (s : string) : string :=
  match s with
  | EmptyString => EmptyString
  | String c s' => String (lower_ascii c) (lower s')
  end.

Definition on_disk : list string :=
  ["/opt/venv"; "/opt/venv/bin"; "/opt/venv/bin/activate"].

#[global] Instance host : Host := {|
  str_lower := lower;
  isoformat_now := fun k => "2024-01-01T00:00:00." +:+ pretty k;
  resolve := fun p => p;
  Path := fun p => p;
  joinpath := fun p c => p +:+ "/" +:+ c;
  path_exists := fun p => bool_decide (p ∈ on_disk);
  win32 := false
|}.

Definition demo : Env.t :=
  Env.mk "demo" "/tmp/demo" None None [("DEBUG", "true")] ["echo hi"] ""
         (isoformat_now 0) None 0.

(** A profile whose virtual environment is not on the disk. *)
Definition ghost : Env.t :=
  Env.mk "Ghost" "/srv/ghost" (Some "/nowhere/venv") None [("A", "1")] ["make"] ""
         (isoformat_now 1) None 0.

(** A profile whose virtual environment is on the disk. *)
Definition web : Env.t :=
  Env.mk "Web" "/srv/web" (Some "/opt/venv") (Some "18") [] [] "site"
         (isoformat_now 2) None 0.

Definition first_run : World := mkWorld None None 0.

Definition stocked : World := mkWorld (Some [demo; ghost; web]) (Some []) 3.



End Posix.

(** ** Listing, and sequences of calls *)

(** Python's [needle in hay] for two strings. *)
Fixpoint contains (needle hay : string) : bool :=
  String.prefix needle hay ||
  match hay with
  | EmptyString => false
  | String _ hay' => contains needle hay'
  end.

Section Listing.
Context {host : Host}.

(** The condition of the comprehension in [list_environments]. *)
Definition matches (search_lower : string) (e : Env.t) : bool :=
  contains search_lower (str_lower (Env.name e)) ||
  contains search_lower (str_lower (Env.description e)) ||
  contains search_lower (str_lower (Env.project_path e)).

Definition list_environments (search : option string) : M (list Env.t) :=
  data ← load_environments;
  let envs := data in
  match truthy search with
  | Some search =>
      let search_lower := str_lower search in
      mret (filter (fun e => matches search_lower e) envs)
  | None => mret envs
  end.

(** One call of a function of the store, with its arguments. *)
Inductive call : Type :=
| Init
| Add (name project_path : string) (python_env node_version : option string)
      (env_vars : option (list (string * string)))
      (shell_commands : option (list string)) (description : string)
| Get (name : string)
| List (search : option string)
| Delete (name : string)
| Switch (name : string)
| Log (env_name : string)
| History (limit : Z).

(** The call, its result dropped. *)
Definition perform (c : call) : M unit :=
  match c with
  | Init => init_config;; mret tt
  | Add name project_path python_env node_version env_vars shell_commands
        description =>
      add_environment name project_path python_env node_version env_vars
                      shell_commands description;; mret tt
  | Get name => get_environment name;; mret tt
  | List search => list_environments search;; mret tt
  | Delete name => delete_environment name;; mret tt
  | Switch name => switch_environment name;; mret tt
  | Log env_name => log_switch env_name
  | History limit => get_history limit;; mret tt
  end.

(** The calls one after the other. *)
Fixpoint perform_all (cs : list call) : M unit :=
  match cs with
  | [] => mret tt
  | c :: cs' => perform c;; perform_all cs'
  end.

End Listing.

(** ** Text

    A string is the sequence of its characters: [String.length] is [len],
    and the slices and the padding below count characters. *)

(** [s[:n]] for [n >= 0]. *)
Fixpoint str_take (n : nat) (s : string) : string :=
  match n, s with
  | S n', String c s' => String c (str_take n' s')
  | _, _ => EmptyString
  end.

Fixpoint str_drop (n : nat) (s : string) : string :=
  match n, s with
  | S n', String _ s' => str_drop n' s'
  | _, _ => s
  end.

(** [s[start:]] for an integer [start], as [slice_from] on lists. *)
Definition str_slice_from (start : Z) (s : string) : string :=
  let n := Z.of_nat (String.length s) in
  let lo := if (start <? 0)%Z then Z.max (start + n) 0 else Z.min start n in
  str_drop (Z.to_nat lo) s.

Fixpoint spaces (n : nat) : string :=
  match n with
  | O => EmptyString
  | S n' => String " "%char (spaces n')
  end.

(** The format [{s:<width}]: [s] padded with spaces on the right. *)
Definition ljust (width : nat) (s : string) : string :=
  s +:+ spaces (width - String.length s).

(** The line that [print_environment_table] prints for one environment:
    the body of its loop. *)
Definition table_row (env : Env.t) : string :=
  let name := str_take 19 (Env.name env) in
  let uses := Env.use_count env in
  let path := Env.project_path env in
  let path :=
    if (49 <? String.length path)%nat then "..." +:+ str_slice_from (-46) path
    else path in
  ljust 20 name +:+ " " +:+ ljust 8 (pretty uses) +:+ " " +:+ ljust 50 path.

(** ** The [--env KEY=VALUE] arguments of [main] *)

(** [e.split('=', 1)] when ['=' in e]: the text before the first [=] and
    the text after it. *)
Fixpoint split_eq (e : string) : option (string * string) :=
  match e with
  | EmptyString => None
  | String c e' =>
      if decide (c = "="%char) then Some (EmptyString, e')
      else match split_eq e' with
           | Some (key, value) => Some (String c key, value)
           | None => None
           end
  end.

(** [d[key] = value] on a dictionary kept in insertion order: a key that
    is there keeps its place and takes the new value, a new key goes to
    the end. *)
Fixpoint dict_set (key value : string) (d : list (string * string))
    : list (string * string) :=
  match d with
  | [] => [(key, value)]
  | (k, v) :: d' =>
      if decide (k = key) then (k, value) :: d'
      else (k, v) :: dict_set key value d'
  end.

Section EnvArguments.
(** [s.strip()] *)
Variable strip : string -> string.

(** The loop of [main] over [args.env], from the dictionary [env_vars]
    built so far. *)
Fixpoint parse_env_from (env_vars : list (string * string)) (args : list string)
    : list (string * string) :=
  match args with
  | [] => env_vars
  | e :: rest =>
      match split_eq e with
      | Some (key, value) =>
          parse_env_from (dict_set (strip key) (strip value) env_vars) rest
      | None => parse_env_from env_vars rest
      end
  end.

(** The dictionary [env_vars] of the [add] command; [args.env] is [None]
    when no [--env] was given. *)
Definition parse_env (args_env : option (list string)) : list (string * string) :=
  match args_env with
  | Some (e :: rest) => parse_env_from [] (e :: rest)
  | _ => []
  end.

(** [env_vars if env_vars else None], as passed to [add_environment]. *)
Definition env_vars_argument (args_env : option (list string))
    : option (list (string * string)) :=
  match parse_env args_env with
  | [] => None
  | d => Some d
  end.

End EnvArguments.

(** ** More examples *)
Module Examples.

Definition is_space (c : ascii) : bool :=
  let n := nat_of_ascii c in
  ((9 <=? n)%nat && (n <=? 13)%nat) || (n =? 32)%nat.

Fixpoint lstrip (s : string) : string :=
  match s with
  | String c s' => if is_space c then lstrip s' else s
  | EmptyString => EmptyString
  end.

(** [strip] on ASCII text. *)
Definition strip (s : string) : string :=
  String.rev (lstrip (String.rev (lstrip s))).

(** A profile with a long name, a long path and a description. *)
Definition archive : Env.t :=
  Env.mk "Quarterly-Reports-Archive-2024" 
         "/home/analyst/projects/finance/quarterly-reports/archive-2024"
         None None [] [] "Old reports" (isoformat_now 0) None 12.

Definition library : World :=
  mkWorld (Some [Posix.demo; archive; Posix.web]) (Some []) 3.

(** A history of five switches. *)
Definition five : list Switch.t :=
  [Switch.mk "a" (isoformat_now 0); Switch.mk "b" (isoformat_now 1);
   Switch.mk "c" (isoformat_now 2); Switch.mk "d" (isoformat_now 3);
   Switch.mk "e" (isoformat_now 4)].

Definition travelled : World := mkWorld (Some [Posix.demo]) (Some five) 5.

End Examples.

(** ** Queries that raise *)

(** Which queries of the file system raise, and what. *)
Class Faults : Type := {
  (** the exception that [p.exists()] raises for the path [p], when it
      raises: every [OSError] of [stat] but "no such file", "not a
      directory", "bad file descriptor" and "too many links" *)
  exists_raises : string -> option exn;
  (** the exception that [Path(p).resolve()] raises, when it raises *)
  resolve_raises : string -> option exn
}.

(** The world a call leaves, whether it returned or raised. *)
Definition world_of {A : Type} (o : outcome A) : World :=
  match o with
  | Returned _ w => w
  | Raised _ w => w
  end.

Module Raw.
Section Raw.
Context {host : Host} {faults : Faults}.

(** [p.exists()] *)
Definition query_exists (p : string) : M bool :=
  fun w => match exists_raises p with
           | Some e => Raised e w
           | None => Returned (path_exists p) w
           end.

(** [str(Path(p).resolve())] *)
Definition query_resolve (p : string) : M string :=
  fun w => match resolve_raises p with
           | Some e => Raised e w
           | None => Returned (resolve p) w
           end.

Definition add_environment (name project_path : string)
    (python_env node_version : option string)
    (env_vars : option (list (string * string)))
    (shell_commands : option (list string))
    (description : string) : M bool :=
  data ← load_environments;
  match list_find (same_name name) data with
  | Some _ => mret false
  | None =>
      project_path ← query_resolve project_path;
      created ← now;
      let environment :=
        Env.mk name project_path python_env node_version
               (default [] env_vars)
               (default [] shell_commands)
               description created None 0 in
      save_environments (data ++ [environment]);;
      mret true
  end.

(** The value of [activate_script] in [switch_environment], for a
    [python_path] that exists; on Windows one more [exists()] is made. *)
Definition find_script (python_path : string) : M string :=
  if win32 return M string then
    let bat := joinpath (joinpath python_path "Scripts") "activate.bat" in
    found ← query_exists bat;
    mret (if found : bool then bat
          else joinpath (joinpath python_path "Scripts") "Activate.ps1")
  else mret (joinpath (joinpath python_path "bin") "activate").

(** The activation lines of [switch_environment]; each [exists()] is a
    query. *)
Definition activation (env : Env.t) : M (list string) :=
  match truthy (Env.python_env env) return M (list string) with
  | Some p =>
      let python_path := Path p in
      present ← query_exists python_path;
      if present : bool return M (list string) then
        script ← find_script python_path;
        found ← query_exists script;
        mret (if found : bool then
                [ "# Activate Python environment";
                  if win32 then script else "source " +:+ script ]
              else [])
      else mret []
  | None => mret []
  end.

(** The part of [switch_environment] under "Generate commands". *)
Definition switch_commands (env : Env.t) : M (list string) :=
  lines ← activation env;
  mret (["cd " +:+ Env.project_path env] ++ lines ++ exports env ++ custom env).

Definition switch_environment (name : string) : M (option (list string)) :=
  env ← get_environment name;
  match env with
  | None => mret None
  | Some env =>
      data ← load_environments;
      data' ← update_usage name data;
      save_environments data';;
      log_switch name;;
      commands ← switch_commands env;
      mret (Some commands)
  end.

(** The exception that the queries of the activation raise for a value of
    [python_env], if one of them raises: the queries in the order the
    code makes them. *)
Definition fault_of (python_env : option string) : option exn :=
  match truthy python_env with
  | None => None
  | Some p =>
      match exists_raises (Path p) with
      | Some e => Some e
      | None =>
          if path_exists (Path p) then
            match (if win32 then
                     exists_raises
                       (joinpath (joinpath (Path p) "Scripts") "activate.bat")
                   else None) with
            | Some e => Some e
            | None => exists_raises (activate_script (Path p))
            end
          else None
      end
  end.

(** How one call of [switch_environment] ended: with an exception, or
    with its result. *)
Definition ending : Type := exn + option (list string).


(** Successive calls of [switch_environment], one per name, each on the
    world the one before left, whether that one returned or raised. *)
Fixpoint switch_each (names : list string) (w : World) : list ending * World :=
  match names with
  | [] => ([], w)
  | n :: ns =>
      match switch_environment n w with
      | Returned r w1 =>
          let (rs, w2) := switch_each ns w1 in (inr r :: rs, w2)
      | Raised e w1 =>
          let (rs, w2) := switch_each ns w1 in (inl e :: rs, w2)
      end
  end.

(** The world one call leaves.  An exception ends the call; the next one
    finds the files as they then are. *)
Definition perform (c : call) (w : World) : World :=
  match c with
  | Add name project_path python_env node_version env_vars shell_commands
        description =>
      world_of (add_environment name project_path python_env node_version
                                env_vars shell_commands description w)
  | Switch name => world_of (switch_environment name w)
  | c => world_of (perform c w)
  end.

Definition perform_all (cs : list call) (w : World) : World :=
  fold_left (fun w c => perform c w) cs w.

End Raw.
End Raw.

(** ** A file system that refuses long names *)
Module Refusing.

(** The length of the longest component of a path. *)
Fixpoint longest_from (current best : nat) (p : string) : nat :=
  match p with
  | EmptyString => Nat.max current best
  | String c p' =>
      if decide (c = "/"%char) then longest_from 0 (Nat.max current best) p'
      else longest_from (S current) best p'
  end.

Definition longest_component (p : string) : nat := longest_from 0 0 p.

Fixpoint has_nul (p : string) : bool :=
  match p with
  | EmptyString => false
  | String c p' => (nat_of_ascii c =? 0)%nat || has_nul p'
  end.

(** [stat] fails with ENAMETOOLONG on a component of more than 255
    characters; [resolve] rejects a NUL. *)
#[global] Instance faults : Faults := {|
  exists_raises := fun p =>
    if (255 <? longest_component p)%nat then Some (OSError "File name too long")
    else None;
  resolve_raises := fun p =>
    if has_nul p then Some (ValueError "embedded null byte") else None
|}.

Fixpoint letters (n : nat) : string :=
  match n with
  | O => EmptyString
  | S n' => String "a"%char (letters n')
  end.

(** ['/' + 'a' * 300]: no such directory, and a name too long to ask
    about. *)
Definition deep_name : string := String "/"%char (letters 300).



End Refusing.

(** ** Running the monad *)

Ltac run :=
  repeat (cbn [mbind mret M_bind M_ret envs_file history_file ticks] ||
          unfold mbind, mret, M_bind, M_ret, unless, envs_exists, history_exists,
                 read_envs, read_history, write_envs, write_history, now,
                 save_environments).

Section Lemmas.
Context {host : Host}.

Lemma init_config_run (w : World) :
  init_config w =
  Returned true (mkWorld (Some (environments w)) (Some (switches w)) (ticks w)).
Proof.
  unfold init_config, environments, switches. run.
  destruct w as [[e|] [h|] t]; reflexivity.
Qed.

Lemma load_environments_run (w : World) :
  load_environments w = Returned (environments w) (after_load w).
Proof.
  unfold load_environments, after_load, environments. run.
  destruct (envs_file w) as [l|] eqn:E; cbn.
  - rewrite E. reflexivity.
  - rewrite init_config_run. unfold environments. rewrite E. reflexivity.
Qed.

Lemma environments_after_load (w : World) :
  environments (after_load w) = environments w.
Proof. unfold after_load, environments. destruct (envs_file w) eqn:E; cbn; rewrite ?E; reflexivity. Qed.

Lemma switches_after_load (w : World) :
  switches (after_load w) = switches w.
Proof. unfold after_load. destruct (envs_file w); reflexivity. Qed.

Lemma ticks_after_load (w : World) : ticks (after_load w) = ticks w.
Proof. unfold after_load. destruct (envs_file w); reflexivity. Qed.

Lemma after_load_stored (w : World) :
  is_Some (envs_file w) -> after_load w = w.
Proof. intros [l E]. unfold after_load. rewrite E. reflexivity. Qed.

Lemma after_load_idem (w : World) : after_load (after_load w) = after_load w.
Proof. unfold after_load. destruct (envs_file w) eqn:E; cbn; rewrite ?E; reflexivity. Qed.

Lemma environments_stored l h t : environments (mkWorld (Some l) h t) = l.
Proof. reflexivity. Qed.

Lemma switches_stored o h t : switches (mkWorld o (Some h) t) = h.
Proof. reflexivity. Qed.

Lemma stored_of_elem (w : World) (e : Env.t) :
  e ∈ environments w -> is_Some (envs_file w).
Proof.
  unfold environments. destruct (envs_file w); cbn; [eauto|].
  intros H. inversion H.
Qed.

End Lemmas.

(** ** Slices *)

Section Slices.
Context {A : Type}.
Implicit Types l k : list A.

Lemma slice_from_neg (n : nat) l :
  (0 < n)%nat -> slice_from (- Z.of_nat n) l = lastn n l.
Proof.
  intros Hn. unfold slice_from, lastn.
  destruct (Z.ltb_spec (- Z.of_nat n) 0) as [_|]; [|lia].
  f_equal. lia.
Qed.

Lemma slice_from_zero l : slice_from 0 l = l.
Proof.
  unfold slice_from. cbn [Z.ltb Z.compare].
  replace (Z.to_nat (Z.min 0 (Z.of_nat (length l)))) with 0%nat by lia.
  reflexivity.
Qed.

Lemma lastn_length n l : length (lastn n l) = Nat.min n (length l).
Proof. unfold lastn. rewrite length_drop. lia. Qed.




Lemma last_lastn_snoc n l (x : A) :
  (0 < n)%nat -> last (lastn n (l ++ [x])) = Some x.
Proof.
  intros Hn. unfold lastn. rewrite length_app. cbn [length].
  rewrite drop_app_le by lia. apply last_snoc.
Qed.

End Slices.

(** ** The first profile with a given name *)

Section Lookup.
Context {host : Host}.
Implicit Types (l : list Env.t) (e : Env.t) (w : World).

Lemma same_name_variant name name' e :
  case_variant name name' -> same_name name' e <-> same_name name e.
Proof. unfold case_variant, same_name. intros ->. reflexivity. Qed.

Lemma list_find_variant name name' l :
  case_variant name name' ->
  list_find (same_name name') l = list_find (same_name name) l.
Proof. intros H. apply list_find_ext. intros e. apply same_name_variant, H. Qed.

Lemma list_find_first name l1 e l2 :
  Forall (fun x => ~ same_name name x) l1 -> same_name name e ->
  list_find (same_name name) (l1 ++ e :: l2) = Some (length l1, e).
Proof.
  intros Hl1 He. induction Hl1 as [|x l1 Hx _ IH]; cbn.
  - rewrite decide_True by assumption. reflexivity.
  - rewrite decide_False by assumption. rewrite IH. reflexivity.
Qed.

Lemma list_find_split name l i e :
  list_find (same_name name) l = Some (i, e) ->
  exists l1 l2, l = l1 ++ e :: l2 /\ length l1 = i /\
                Forall (fun x => ~ same_name name x) l1 /\ same_name name e.
Proof.
  revert i. induction l as [|x l IH]; intros i; cbn; [discriminate|].
  destruct (decide (same_name name x)) as [Hx|Hx].
  - intros [= <- <-]. exists [], l. repeat split; [constructor | assumption].
  - destruct (list_find (same_name name) l) as [[j y]|] eqn:E; [|discriminate].
    cbn. intros [= <- <-].
    destruct (IH j eq_refl) as (l1 & l2 & -> & <- & Hl1 & He).
    exists (x :: l1), l2. repeat split; [constructor|]; assumption.
Qed.

Lemma list_find_absent name l :
  Forall (fun x => ~ same_name name x) l ->
  list_find (same_name name) l = None.
Proof. intros H. apply list_find_None, H. Qed.

Lemma delete_middle l1 e l2 : delete (length l1) (l1 ++ e :: l2) = l1 ++ l2.
Proof. induction l1 as [|x l1 IH]; cbn; [reflexivity|]. f_equal. exact IH. Qed.

(** The usage update touches the first match and reads the clock once;
    without a match it changes nothing and the clock is not read. *)
Lemma update_usage_first name l1 e l2 w :
  Forall (fun x => ~ same_name name x) l1 -> same_name name e ->
  update_usage name (l1 ++ e :: l2) w =
  Returned (l1 ++ Env.used (isoformat_now (ticks w)) e :: l2)
           (mkWorld (envs_file w) (history_file w) (S (ticks w))).
Proof.
  intros Hl1 He. induction Hl1 as [|x l1 Hx _ IH]; cbn [app update_usage].
  - rewrite decide_True by assumption. reflexivity.
  - rewrite decide_False by assumption. run. rewrite IH. reflexivity.
Qed.

Lemma update_usage_absent name l w :
  Forall (fun x => ~ same_name name x) l ->
  update_usage name l w = Returned l w.
Proof.
  intros H. induction H as [|x l Hx _ IH]; cbn [update_usage]; [reflexivity|].
  rewrite decide_False by assumption. run. rewrite IH. reflexivity.
Qed.

End Lookup.

(** ** What each operation does to a world *)

Section Store.
Context {host : Host}.
Implicit Types (l : list Env.t) (e : Env.t) (w : World).

Lemma get_environment_run name w :
  get_environment name w =
  Returned (snd <$> list_find (same_name name) (environments w)) (after_load w).
Proof. unfold get_environment. run. rewrite load_environments_run. reflexivity. Qed.

Lemma add_environment_taken name project_path python_env node_version
    env_vars shell_commands description w :
  is_Some (list_find (same_name name) (environments w)) ->
  add_environment name project_path python_env node_version env_vars
                  shell_commands description w
  = Returned false (after_load w).
Proof.
  intros [p Hp]. unfold add_environment. run.
  rewrite load_environments_run, Hp. reflexivity.
Qed.

Lemma add_environment_fresh name project_path python_env node_version
    env_vars shell_commands description w :
  list_find (same_name name) (environments w) = None ->
  add_environment name project_path python_env node_version env_vars
                  shell_commands description w
  = Returned true
      (mkWorld
         (Some (environments w ++
                [Env.mk name (resolve project_path) python_env node_version
                        (default [] env_vars) (default [] shell_commands)
                        description (isoformat_now (ticks w)) None 0]))
         (history_file (after_load w))
         (S (ticks w))).
Proof.
  intros Hp. unfold add_environment. run.
  rewrite load_environments_run, Hp. run. rewrite ticks_after_load.
  reflexivity.
Qed.

Lemma delete_environment_first name l1 e l2 w :
  environments w = l1 ++ e :: l2 ->
  Forall (fun x => ~ same_name name x) l1 -> same_name name e ->
  delete_environment name w =
  Returned true (mkWorld (Some (l1 ++ l2)) (history_file w) (ticks w)).
Proof.
  intros Hw Hl1 He. unfold delete_environment. run.
  rewrite load_environments_run, Hw, (list_find_first _ _ _ _ Hl1 He). run.
  rewrite delete_middle, after_load_stored; [reflexivity|].
  apply (stored_of_elem w e). rewrite Hw. apply elem_of_app. right. constructor.
Qed.

Lemma delete_environment_absent name w :
  Forall (fun x => ~ same_name name x) (environments w) ->
  delete_environment name w = Returned false (after_load w).
Proof.
  intros H. unfold delete_environment. run.
  rewrite load_environments_run, (list_find_absent _ _ H). reflexivity.
Qed.

Lemma log_switch_run env_name w :
  log_switch env_name w =
  Returned tt
    (mkWorld
       (match history_file w with
        | Some _ => envs_file w
        | None => Some (environments w)
        end)
       (Some (slice_from (-100)
                (switches w ++ [Switch.mk env_name (isoformat_now (ticks w))])))
       (S (ticks w))).
Proof.
  unfold log_switch, switches. run.
  destruct (history_file w) as [h|] eqn:E; cbn.
  - rewrite E. reflexivity.
  - rewrite init_config_run. cbn. unfold switches. rewrite E. reflexivity.
Qed.

Lemma switch_environment_first name l1 e l2 w :
  environments w = l1 ++ e :: l2 ->
  Forall (fun x => ~ same_name name x) l1 -> same_name name e ->
  switch_environment name w =
  Returned (Some (switch_commands e))
    (mkWorld
       (Some (l1 ++ Env.used (isoformat_now (ticks w)) e :: l2))
       (Some (slice_from (-100)
                (switches w ++ [Switch.mk name (isoformat_now (S (ticks w)))])))
       (S (S (ticks w)))).
Proof.
  intros Hw Hl1 He. unfold switch_environment. run.
  rewrite get_environment_run, Hw, (list_find_first _ _ _ _ Hl1 He).
  cbn [fmap option_fmap option_map snd].
  rewrite load_environments_run, after_load_idem, environments_after_load, Hw.
  rewrite (update_usage_first _ _ _ _ _ Hl1 He). run.
  rewrite log_switch_run. cbn [envs_file history_file ticks].
  rewrite ticks_after_load.
  replace (switches (mkWorld _ (history_file (after_load w)) _))
    with (switches w) by (symmetry; apply switches_after_load).
  destruct (history_file (after_load w)); reflexivity.
Qed.

Lemma switch_environment_absent name w :
  Forall (fun x => ~ same_name name x) (environments w) ->
  switch_environment name w = Returned None (after_load w).
Proof.
  intros H. unfold switch_environment. run.
  rewrite get_environment_run, (list_find_absent _ _ H). reflexivity.
Qed.

(** Every name is either the name of a first match or matches nothing. *)
Lemma find_cases name l :
  (exists l1 e l2, l = l1 ++ e :: l2 /\
                   Forall (fun x => ~ same_name name x) l1 /\ same_name name e)
  \/ Forall (fun x => ~ same_name name x) l.
Proof.
  destruct (list_find (same_name name) l) as [[i e]|] eqn:E.
  - left. destruct (list_find_split _ _ _ _ E) as (l1 & l2 & -> & _ & H1 & H2).
    eauto 6.
  - right. apply list_find_None in E. exact E.
Qed.

End Store.

(** ** Adding and fetching *)

Section AddGet.
Context {host : Host}.
Implicit Types (l : list Env.t) (e : Env.t) (w : World).

(** A successful [add_environment] appends the new profile, and every
    case variant of its name then fetches it. *)
Lemma add_then_find name name' project_path python_env node_version
    env_vars shell_commands description w :
  Forall (fun e => ~ same_name name e) (environments w) ->
  case_variant name name' ->
  let env := Env.mk name (resolve project_path) python_env node_version
                    (default [] env_vars) (default [] shell_commands)
                    description (isoformat_now (ticks w)) None 0 in
  let w1 := mkWorld (Some (environments w ++ [env]))
                    (history_file (after_load w)) (S (ticks w)) in
  add_environment name project_path python_env node_version env_vars
                  shell_commands description w = Returned true w1 /\
  get_environment name' w1 = Returned (Some env) w1.
Proof.
  intros Hfresh Hvar env w1. split.
  - apply add_environment_fresh, list_find_absent, Hfresh.
  - rewrite get_environment_run. unfold w1 at 1.
    rewrite environments_stored.
    rewrite (list_find_variant name name') by assumption.
    rewrite list_find_first; [reflexivity | assumption | reflexivity].
Qed.

(** Under unique names, a stored profile is the first match of every
    case variant of its name. *)
Lemma unique_first_match name' e l :
  unique_names l -> e ∈ l -> case_variant (Env.name e) name' ->
  exists l1 l2, l = l1 ++ e :: l2 /\
                Forall (fun x => ~ same_name name' x) l1 /\ same_name name' e.
Proof.
  intros Hu He Hvar. apply list_elem_of_split in He as (l1 & l2 & ->).
  exists l1, l2. split; [reflexivity|]. split.
  - unfold unique_names in Hu. rewrite map_app in Hu. cbn [map] in Hu.
    apply NoDup_app in Hu as (_ & Hdis & _).
    apply Forall_forall. intros x Hx Hsame.
    apply (Hdis (str_lower (Env.name x))).
    + apply list_elem_of_fmap. exists x. split; [reflexivity | assumption].
    + unfold same_name, case_variant in *. rewrite Hsame, Hvar. constructor.
  - unfold same_name, case_variant in *. symmetry. assumption.
Qed.

(** Adding keeps the names unique. *)
Lemma add_keeps_unique name project_path python_env node_version
    env_vars shell_commands description w b w' :
  unique_names (environments w) ->
  add_environment name project_path python_env node_version env_vars
                  shell_commands description w = Returned b w' ->
  unique_names (environments w').
Proof.
  intros Hu. destruct (find_cases name (environments w))
    as [(l1 & e & l2 & Hw & Hl1 & He)|Habs].
  - rewrite add_environment_taken.
    + intros [= _ <-]. rewrite environments_after_load. assumption.
    + rewrite Hw, (list_find_first _ _ _ _ Hl1 He). eauto.
  - rewrite (add_environment_fresh _ _ _ _ _ _ _ _ (list_find_absent _ _ Habs)).
    intros [= _ <-]. rewrite environments_stored.
    unfold unique_names in *. rewrite map_app. cbn [map Env.name].
    apply NoDup_app. split; [assumption|]. split; [|apply NoDup_singleton].
    intros s Hs Hin. apply list_elem_of_singleton in Hin. subst s.
    apply list_elem_of_fmap in Hs as (x & Hx & Hin).
    rewrite Forall_forall in Habs. apply (Habs x Hin). symmetry. exact Hx.
Qed.

End AddGet.

(** C1. When no stored profile has the new name under case folding,
    [add_environment] succeeds, and [get_environment] with any case
    variant of the name then returns the new profile: its [use_count] is
    0, its [last_used] is [None], its [project_path] is the resolved input
    path, its [created] is the clock reading taken by the call, and its
    other fields are the arguments ([None] for absent variables and
    commands read as empty). *)
Theorem add_then_get {host : Host} (w : World) (name name' project_path : string)
    (python_env node_version : option string)
    (env_vars : option (list (string * string)))
    (shell_commands : option (list string)) (description : string) :
  Forall (fun e => ~ same_name name e) (environments w) ->
  case_variant name name' ->
  exists w1 env,
    add_environment name project_path python_env node_version env_vars
                    shell_commands description w = Returned true w1 /\
    get_environment name' w1 = Returned (Some env) w1 /\
    Env.use_count env = 0%Z /\
    Env.last_used env = None /\
    Env.project_path env = resolve project_path /\
    Env.created env = isoformat_now (ticks w) /\
    Env.name env = name /\
    Env.python_env env = python_env /\
    Env.node_version env = node_version /\
    Env.env_vars env = default [] env_vars /\
    Env.shell_commands env = default [] shell_commands /\
    Env.description env = description.
Proof.
  intros Hfresh Hvar.
  destruct (add_then_find name name' project_path python_env node_version
              env_vars shell_commands description w Hfresh Hvar) as [Hadd Hget].
  eexists _, _. split; [exact Hadd|]. split; [exact Hget|].
  cbn. repeat split; reflexivity.
Qed.

Lemma add_then_get_witness :
  Forall (fun e => ~ same_name "Api" e) (environments Posix.stocked) /\
  case_variant "Api" "aPI" /\
  exists w1 env,
    add_environment "Api" "/srv/api" None (Some "20") (Some [("PORT", "80")])
                    None "backend" Posix.stocked = Returned true w1 /\
    get_environment "aPI" w1 = Returned (Some env) w1 /\
    Env.use_count env = 0%Z /\ Env.last_used env = None /\
    Env.project_path env = "/srv/api" /\
    Env.created env = isoformat_now 3.
Proof.
  assert (Hfresh : Forall (fun e => ~ same_name "Api" e) (environments Posix.stocked)).
  { repeat constructor; vm_compute; discriminate. }
  assert (Hvar : case_variant "Api" "aPI") by reflexivity.
  split; [exact Hfresh|]. split; [exact Hvar|].
  destruct (add_then_get Posix.stocked "Api" "aPI" "/srv/api" None (Some "20")
              (Some [("PORT", "80")]) None "backend" Hfresh Hvar)
    as (w1 & env & Hadd & Hget & Hc & Hl & Hp & Hcr & _).
  exists w1, env. repeat split; assumption.
Defined.

(** C2. When a stored profile has the requested name under case folding,
    [add_environment] returns [False] and the world, with every stored
    profile and every field in it, is the one before the call. *)
Theorem add_duplicate_rejected {host : Host} (w : World) (e : Env.t)
    (name project_path : string) (python_env node_version : option string)
    (env_vars : option (list (string * string)))
    (shell_commands : option (list string)) (description : string) :
  e ∈ environments w ->
  str_lower (Env.name e) = str_lower name ->
  add_environment name project_path python_env node_version env_vars
                  shell_commands description w = Returned false w.
Proof.
  intros Hin Hsame.
  rewrite add_environment_taken.
  - rewrite after_load_stored; [reflexivity|]. eapply stored_of_elem, Hin.
  - apply (list_find_elem_of _ _ e); assumption.
Qed.

Lemma add_duplicate_rejected_witness :
  Posix.ghost ∈ environments Posix.stocked /\
  str_lower (Env.name Posix.ghost) = str_lower "GHOST" /\
  add_environment "GHOST" "/elsewhere" None None None (Some ["ls"]) "again"
                  Posix.stocked = Returned false Posix.stocked.
Proof.
  assert (Hin : Posix.ghost ∈ environments Posix.stocked).
  { apply list_elem_of_further, list_elem_of_here. }
  assert (Hsame : str_lower (Env.name Posix.ghost) = str_lower "GHOST")
    by reflexivity.
  split; [exact Hin|]. split; [exact Hsame|].
  exact (add_duplicate_rejected Posix.stocked Posix.ghost "GHOST" "/elsewhere"
           None None None (Some ["ls"]) "again" Hin Hsame).
Defined.

(** C10. [get_environment] reads only: in a store with unique names, any
    case variant of a stored profile's name returns that profile as it is
    stored and leaves the world as it was; and a profile fetched after its
    creation carries the name in the letter case given to
    [add_environment], whatever the case of the lookup. *)
Theorem get_returns_stored {host : Host} :
  (forall (w : World) (e : Env.t) (name' : string),
      unique_names (environments w) ->
      e ∈ environments w ->
      case_variant (Env.name e) name' ->
      get_environment name' w = Returned (Some e) w) /\
  (forall (w : World) (name name' project_path : string)
          (python_env node_version : option string)
          (env_vars : option (list (string * string)))
          (shell_commands : option (list string)) (description : string),
      Forall (fun e => ~ same_name name e) (environments w) ->
      case_variant name name' ->
      exists w1 env,
        add_environment name project_path python_env node_version env_vars
                        shell_commands description w = Returned true w1 /\
        get_environment name' w1 = Returned (Some env) w1 /\
        Env.name env = name).
Proof.
  split.
  - intros w e name' Hu Hin Hvar.
    destruct (unique_first_match name' e _ Hu Hin Hvar)
      as (l1 & l2 & Hw & Hl1 & He).
    rewrite get_environment_run, Hw, (list_find_first _ _ _ _ Hl1 He).
    rewrite after_load_stored; [reflexivity|]. eapply stored_of_elem, Hin.
  - intros w name name' project_path python_env node_version env_vars
           shell_commands description Hfresh Hvar.
    destruct (add_then_find name name' project_path python_env node_version
                env_vars shell_commands description w Hfresh Hvar) as [Hadd Hget].
    eexists _, _. split; [exact Hadd|]. split; [exact Hget|]. reflexivity.
Qed.

Lemma get_returns_stored_witness :
  (unique_names (environments Posix.stocked) /\
   Posix.ghost ∈ environments Posix.stocked /\
   case_variant (Env.name Posix.ghost) "gHOST" /\
   get_environment "gHOST" Posix.stocked = Returned (Some Posix.ghost) Posix.stocked) /\
  (Forall (fun e => ~ same_name "MixedCase" e) (environments Posix.first_run) /\
   case_variant "MixedCase" "MIXEDCASE" /\
   exists w1 env,
     add_environment "MixedCase" "/m" None None None None "" Posix.first_run
       = Returned true w1 /\
     get_environment "MIXEDCASE" w1 = Returned (Some env) w1 /\
     Env.name env = "MixedCase").
Proof.
  assert (Hu : unique_names (environments Posix.stocked)).
  { unfold unique_names. apply (bool_decide_unpack _). vm_compute. exact I. }
  assert (Hin : Posix.ghost ∈ environments Posix.stocked).
  { apply list_elem_of_further, list_elem_of_here. }
  assert (Hvar : case_variant (Env.name Posix.ghost) "gHOST") by reflexivity.
  assert (Hfresh : Forall (fun e => ~ same_name "MixedCase" e)
                          (environments Posix.first_run)) by constructor.
  assert (Hvar' : case_variant "MixedCase" "MIXEDCASE") by reflexivity.
  split.
  - split; [exact Hu|]. split; [exact Hin|]. split; [exact Hvar|].
    exact (proj1 get_returns_stored Posix.stocked Posix.ghost "gHOST" Hu Hin Hvar).
  - split; [exact Hfresh|]. split; [exact Hvar'|].
    exact (proj2 get_returns_stored Posix.first_run "MixedCase" "MIXEDCASE" "/m"
             None None None None "" Hfresh Hvar').
Defined.

(** ** Deleting *)

(** C8. [delete_environment] with a name that a stored profile has under
    case folding returns [True] and stores the collection without the
    first such profile: the profiles before and after it are kept as they
    are, in order, and the history and the clock are untouched.  With a
    name that no stored profile has it returns [False] and the collection
    is the same; when the environments file exists the whole world is the
    same. *)
Theorem delete_frame {host : Host} (w : World) (name : string) :
  (forall (l1 : list Env.t) (e : Env.t) (l2 : list Env.t),
      environments w = l1 ++ e :: l2 ->
      Forall (fun x => ~ same_name name x) l1 ->
      same_name name e ->
      delete_environment name w =
      Returned true (mkWorld (Some (l1 ++ l2)) (history_file w) (ticks w))) /\
  (Forall (fun x => ~ same_name name x) (environments w) ->
   exists w',
     delete_environment name w = Returned false w' /\
     environments w' = environments w /\
     switches w' = switches w /\
     ticks w' = ticks w /\
     (is_Some (envs_file w) -> w' = w)).
Proof.
  split.
  - intros l1 e l2. apply delete_environment_first.
  - intros Habs. exists (after_load w).
    split; [apply delete_environment_absent, Habs|].
    split; [apply environments_after_load|].
    split; [apply switches_after_load|].
    split; [apply ticks_after_load | apply after_load_stored].
Qed.

Lemma delete_frame_witness :
  (environments Posix.stocked = [Posix.demo] ++ Posix.ghost :: [Posix.web] /\
   Forall (fun x => ~ same_name "GHOST" x) [Posix.demo] /\
   same_name "GHOST" Posix.ghost /\
   delete_environment "GHOST" Posix.stocked =
   Returned true (mkWorld (Some [Posix.demo; Posix.web]) (Some []) 3)) /\
  (Forall (fun x => ~ same_name "nobody" x) (environments Posix.stocked) /\
   exists w',
     delete_environment "nobody" Posix.stocked = Returned false w' /\
     environments w' = environments Posix.stocked /\
     (is_Some (envs_file Posix.stocked) -> w' = Posix.stocked)).
Proof.
  assert (H1 : environments Posix.stocked = [Posix.demo] ++ Posix.ghost :: [Posix.web])
    by reflexivity.
  assert (H2 : Forall (fun x => ~ same_name "GHOST" x) [Posix.demo]).
  { repeat constructor; vm_compute; discriminate. }
  assert (H3 : same_name "GHOST" Posix.ghost) by reflexivity.
  assert (H4 : Forall (fun x => ~ same_name "nobody" x) (environments Posix.stocked)).
  { repeat constructor; vm_compute; discriminate. }
  split.
  - split; [exact H1|]. split; [exact H2|]. split; [exact H3|].
    exact (proj1 (delete_frame Posix.stocked "GHOST") _ _ _ H1 H2 H3).
  - split; [exact H4|].
    destruct (proj2 (delete_frame Posix.stocked "nobody") H4)
      as (w' & Hd & He & _ & _ & Hs).
    exists w'. repeat split; assumption.
Defined.

(** ** The command list *)

(** With the virtual environment and its script on the disk the
    activation section is there. *)
Example activation_present :
  switch_commands Posix.web =
  ["cd /srv/web"; "# Activate Python environment"; "source /opt/venv/bin/activate"].
Proof. reflexivity. Qed.

(** C5, as the specification words it: the plan of the demo profile does
    not have four lines. *)
Lemma demo_plan_not_four_lines : length (switch_commands Posix.demo) <> 4%nat.
Proof. vm_compute. discriminate. Qed.

(** C5, amended. Off Windows, a profile with project path [/tmp/demo], no
    [python_env], the variable [DEBUG=true] and the command [echo hi] is
    planned as five lines: the directory change, the comment of the
    variable section, the export, the comment of the command section, and
    the command; there is no activation line. *)
Theorem demo_plan_five_lines {host : Host} (e : Env.t) :
  win32 = false ->
  Env.name e = "demo" ->
  Env.project_path e = "/tmp/demo" ->
  Env.python_env e = None ->
  Env.env_vars e = [("DEBUG", "true")] ->
  Env.shell_commands e = ["echo hi"] ->
  switch_commands e =
  [ "cd /tmp/demo";
    "# Set environment variables";
    "export DEBUG=" +:+ dquote +:+ "true" +:+ dquote;
    "# Custom commands";
    "echo hi" ] /\
  length (switch_commands e) = 5%nat.
Proof.
  intros Hwin _ Hpath Hpy Hvars Hcmds.
  assert (H : switch_commands e =
              [ "cd /tmp/demo"; "# Set environment variables";
                "export DEBUG=" +:+ dquote +:+ "true" +:+ dquote;
                "# Custom commands"; "echo hi" ]).
  { unfold switch_commands, activation, exports, custom, truthy.
    rewrite Hpath, Hpy, Hvars, Hcmds, Hwin. reflexivity. }
  split; [exact H | rewrite H; reflexivity].
Qed.

Lemma demo_plan_five_lines_witness :
  win32 = false /\
  switch_commands Posix.demo =
  [ "cd /tmp/demo";
    "# Set environment variables";
    "export DEBUG=" +:+ dquote +:+ "true" +:+ dquote;
    "# Custom commands";
    "echo hi" ] /\
  length (switch_commands Posix.demo) = 5%nat.
Proof.
  split; [reflexivity|].
  exact (demo_plan_five_lines Posix.demo eq_refl eq_refl eq_refl eq_refl
           eq_refl eq_refl).
Defined.

(** ** Reading the history *)

Section History.
Context {host : Host}.

Lemma get_history_run (limit : Z) (w : World) :
  get_history limit w = Returned (slice_from (- limit) (switches w)) w.
Proof.
  unfold get_history, switches. run.
  destruct (history_file w) as [h|] eqn:E; cbn; rewrite ?E; [reflexivity|].
  unfold slice_from. cbn [length]. rewrite drop_nil. reflexivity.
Qed.

(** A positive limit gives the last [limit] entries, oldest first. *)
Lemma get_history_positive (limit : Z) (w : World) :
  (0 < limit)%Z ->
  get_history limit w = Returned (lastn (Z.to_nat limit) (switches w)) w.
Proof.
  intros H. rewrite get_history_run. f_equal.
  rewrite <- (Z2Nat.id limit) at 1 by lia. apply slice_from_neg. lia.
Qed.

(** A negative limit drops the oldest [- limit] entries. *)
Lemma get_history_negative (limit : Z) (w : World) :
  (limit < 0)%Z ->
  get_history limit w = Returned (drop (Z.to_nat (- limit)) (switches w)) w.
Proof.
  intros H. rewrite get_history_run. f_equal. unfold slice_from.
  destruct (Z.ltb_spec (- limit) 0) as [|_]; [lia|].
  destruct (Z.min_spec (- limit) (Z.of_nat (length (switches w))))
    as [[_ ->]|[Hle ->]]; [reflexivity|].
  rewrite Nat2Z.id, drop_all, drop_ge by lia. reflexivity.
Qed.

End History.

(** C7, at the limit 0: [history["switches"][-0:]] is the whole list, so
    [get_history 0] returns every entry of the log, not none. *)
Theorem get_history_zero_limit {host : Host} (o : option (list Env.t))
    (h : list Switch.t) (t : nat) :
  get_history 0 (mkWorld o (Some h) t) = Returned h (mkWorld o (Some h) t).
Proof. rewrite get_history_run, switches_stored. cbn. rewrite slice_from_zero. reflexivity. Qed.

(** The same on a log of two entries. *)
Example get_history_zero_two_entries :
  get_history 0 (mkWorld None (Some [Switch.mk "a" "t1"; Switch.mk "b" "t2"]) 0)
  = Returned [Switch.mk "a" "t1"; Switch.mk "b" "t2"]
             (mkWorld None (Some [Switch.mk "a" "t1"; Switch.mk "b" "t2"]) 0).
Proof. reflexivity. Qed.

(** ** Switching *)

Section Switching.
Context {host : Host}.
Implicit Types (l : list Env.t) (e : Env.t) (w : World) (names : list string).

Lemma switch_each_cons name names w :
  switch_each (name :: names) w =
  match switch_environment name w with
  | Returned r w1 =>
      match switch_each names w1 with
      | Returned rs w2 => Returned (r :: rs) w2
      | Raised x w' => Raised x w'
      end
  | Raised x w' => Raised x w'
  end.
Proof. reflexivity. Qed.

Lemma switch_each_app names1 names2 w :
  switch_each (names1 ++ names2) w =
  match switch_each names1 w with
  | Returned rs1 w1 =>
      match switch_each names2 w1 with
      | Returned rs2 w2 => Returned (rs1 ++ rs2) w2
      | Raised x w' => Raised x w'
      end
  | Raised x w' => Raised x w'
  end.
Proof.
  revert w. induction names1 as [|n ns IH]; intros w.
  - change (switch_each [] w) with (Returned (A:=list (option (list string))) [] w).
    cbn [app]. destruct (switch_each names2 w); reflexivity.
  - cbn [app]. rewrite !switch_each_cons.
    destruct (switch_environment n w) as [r w1|x w1]; [|reflexivity].
    rewrite IH. destruct (switch_each ns w1) as [rs1 w2|x w2]; [|reflexivity].
    destruct (switch_each names2 w2); reflexivity.
Qed.








End Switching.






(** ** Further properties of the store *)

Section Frames.
Context {host : Host}.
Implicit Types (l : list Env.t) (e : Env.t) (w : World).

(** The first match of a concatenation is the first match of its left
    part, or else of its right part. *)
Lemma first_match_app (P : Env.t -> Prop) `{forall x, Decision (P x)} l1 l2 :
  snd <$> list_find P (l1 ++ l2) =
  match snd <$> list_find P l1 with
  | Some x => Some x
  | None => snd <$> list_find P l2
  end.
Proof.
  induction l1 as [|x l1 IH]; cbn; [reflexivity|].
  destruct (decide (P x)); [reflexivity|].
  rewrite <- !option_fmap_compose.
  change (snd ∘ prod_map S id) with (@snd nat Env.t) in *.
  replace (snd <$> list_find P (l1 ++ l2))
    with (@snd nat Env.t <$> list_find P (l1 ++ l2)) in IH by reflexivity.
  etransitivity; [|exact IH]. apply option_fmap_ext. intros [i y]. reflexivity.
Qed.

Lemma first_match_skip (P : Env.t -> Prop) `{forall x, Decision (P x)} l1 e l2 :
  ~ P e ->
  snd <$> list_find P (l1 ++ e :: l2) = snd <$> list_find P (l1 ++ l2).
Proof.
  intros He. rewrite !first_match_app. cbn [list_find].
  rewrite decide_False by assumption.
  destruct (list_find P l1) as [[i x]|]; [reflexivity|]. cbn.
  destruct (list_find P l2) as [[i x]|]; reflexivity.
Qed.

Lemma other_name name name2 e :
  str_lower name2 <> str_lower name -> same_name name e -> ~ same_name name2 e.
Proof. unfold same_name. congruence. Qed.

Lemma unique_names_sublist l k :
  k `sublist_of` l -> unique_names l -> unique_names k.
Proof.
  unfold unique_names. intros Hs Hu.
  eapply sublist_NoDup; [exact Hu|]. apply (fmap_sublist _ _ _ Hs).
Qed.

Lemma unique_names_used l1 e l2 ts :
  unique_names (l1 ++ e :: l2) -> unique_names (l1 ++ Env.used ts e :: l2).
Proof. unfold unique_names. rewrite !map_app. cbn. auto. Qed.

Lemma unique_no_later_match name l1 e l2 :
  unique_names (l1 ++ e :: l2) -> same_name name e ->
  Forall (fun x => ~ same_name name x) l2.
Proof.
  unfold unique_names. rewrite map_app. cbn [map]. intros Hu He.
  apply NoDup_app in Hu as (_ & _ & Hu). apply NoDup_cons in Hu as [Hn _].
  apply Forall_forall. intros x Hx Hs. apply Hn.
  apply list_elem_of_fmap. exists x. split; [|exact Hx].
  unfold same_name in *. congruence.
Qed.

Lemma switch_commands_used ts e :
  switch_commands (Env.used ts e) = switch_commands e.
Proof. reflexivity. Qed.

End Frames.

(** X1. [init_config] always returns [True], leaves both files in
    existence, keeps the profiles, the history and the clock it found (it
    never overwrites a file that exists), is the identity on a world that
    has both files, and a second call changes nothing. *)
Theorem init_config_idempotent {host : Host} (w : World) :
  exists w1,
    init_config w = Returned true w1 /\
    is_Some (envs_file w1) /\ is_Some (history_file w1) /\
    environments w1 = environments w /\
    switches w1 = switches w /\
    ticks w1 = ticks w /\
    (is_Some (envs_file w) -> is_Some (history_file w) -> w1 = w) /\
    init_config w1 = Returned true w1.
Proof.
  eexists. split; [apply init_config_run|].
  split; [cbn; eauto|]. split; [cbn; eauto|].
  split; [reflexivity|]. split; [reflexivity|]. split; [reflexivity|].
  split.
  - intros [l El] [h Eh]. destruct w as [o1 o2 t]. cbn in *. subst. reflexivity.
  - rewrite init_config_run. reflexivity.
Qed.

Lemma init_config_idempotent_witness :
  is_Some (envs_file Posix.stocked) /\ is_Some (history_file Posix.stocked) /\
  init_config Posix.stocked = Returned true Posix.stocked /\
  init_config Posix.first_run = Returned true (mkWorld (Some []) (Some []) 0).
Proof.
  assert (H1 : is_Some (envs_file Posix.stocked)) by (cbn; eauto).
  assert (H2 : is_Some (history_file Posix.stocked)) by (cbn; eauto).
  split; [exact H1|]. split; [exact H2|].
  destruct (init_config_idempotent Posix.stocked) as (w1 & Hrun & _ & _ & _ & _ & _ & Hid & _).
  split; [|reflexivity]. rewrite Hrun. f_equal. exact (Hid H1 H2).
Defined.

(** X2. [switch_environment] with a name that no stored profile has
    returns [None]: the clock is not read, nothing is appended to the
    history, and the profiles are as they were; when the environments file
    exists the whole world is as it was. *)
Theorem switch_unknown_changes_nothing {host : Host} (w : World) (name : string) :
  Forall (fun x => ~ same_name name x) (environments w) ->
  exists w',
    switch_environment name w = Returned None w' /\
    environments w' = environments w /\
    switches w' = switches w /\
    ticks w' = ticks w /\
    (is_Some (envs_file w) -> w' = w).
Proof.
  intros Habs. exists (after_load w).
  split; [apply switch_environment_absent, Habs|].
  split; [apply environments_after_load|].
  split; [apply switches_after_load|].
  split; [apply ticks_after_load | apply after_load_stored].
Qed.

Lemma switch_unknown_changes_nothing_witness :
  Forall (fun x => ~ same_name "nobody" x) (environments Posix.stocked) /\
  switch_environment "nobody" Posix.stocked = Returned None Posix.stocked.
Proof.
  assert (H : Forall (fun x => ~ same_name "nobody" x) (environments Posix.stocked)).
  { repeat constructor; vm_compute; discriminate. }
  split; [exact H|].
  destruct (switch_unknown_changes_nothing Posix.stocked "nobody" H)
    as (w' & Hrun & _ & _ & _ & Hid).
  rewrite Hrun. f_equal. apply Hid. cbn. eauto.
Defined.

(** X3. In a store with unique names, once a profile is deleted under any
    case variant of its name, [get_environment] returns [None] for every
    case variant of that name. *)
Theorem delete_then_get {host : Host} (w : World) (e : Env.t) (name name' : string) :
  unique_names (environments w) ->
  e ∈ environments w ->
  case_variant (Env.name e) name ->
  case_variant (Env.name e) name' ->
  exists w1,
    delete_environment name w = Returned true w1 /\
    get_environment name' w1 = Returned None w1.
Proof.
  intros Hu Hin Hn Hn'.
  destruct (unique_first_match name e _ Hu Hin Hn) as (l1 & l2 & Hw & Hl1 & He).
  eexists. split; [apply (delete_environment_first _ _ _ _ _ Hw Hl1 He)|].
  rewrite get_environment_run, environments_stored.
  assert (Hnn : case_variant name name').
  { unfold case_variant in *. congruence. }
  rewrite (list_find_variant name name' _ Hnn), list_find_absent; [reflexivity|].
  apply Forall_app. split; [exact Hl1|].
  rewrite Hw in Hu. exact (unique_no_later_match name l1 e l2 Hu He).
Qed.

Lemma delete_then_get_witness :
  unique_names (environments Posix.stocked) /\
  Posix.ghost ∈ environments Posix.stocked /\
  case_variant (Env.name Posix.ghost) "GHOST" /\
  case_variant (Env.name Posix.ghost) "ghost" /\
  exists w1,
    delete_environment "GHOST" Posix.stocked = Returned true w1 /\
    get_environment "ghost" w1 = Returned None w1.
Proof.
  assert (Hu : unique_names (environments Posix.stocked)).
  { unfold unique_names. apply (bool_decide_unpack _). vm_compute. exact I. }
  assert (Hin : Posix.ghost ∈ environments Posix.stocked).
  { apply list_elem_of_further, list_elem_of_here. }
  assert (H1 : case_variant (Env.name Posix.ghost) "GHOST") by reflexivity.
  assert (H2 : case_variant (Env.name Posix.ghost) "ghost") by reflexivity.
  repeat (split; [assumption|]).
  exact (delete_then_get Posix.stocked Posix.ghost "GHOST" "ghost" Hu Hin H1 H2).
Defined.

(** X4. A successful [add_environment] followed by [delete_environment]
    under any case variant of the new name gives back the collection of
    profiles there was before the two calls; the history is untouched and
    the clock has been read once. *)
Theorem add_then_delete {host : Host} (w : World) (name name' project_path : string)
    (python_env node_version : option string)
    (env_vars : option (list (string * string)))
    (shell_commands : option (list string)) (description : string) :
  Forall (fun e => ~ same_name name e) (environments w) ->
  case_variant name name' ->
  exists w1 w2,
    add_environment name project_path python_env node_version env_vars
                    shell_commands description w = Returned true w1 /\
    delete_environment name' w1 = Returned true w2 /\
    environments w2 = environments w /\
    switches w2 = switches w /\
    ticks w2 = S (ticks w).
Proof.
  intros Hfresh Hvar.
  destruct (add_then_find name name' project_path python_env node_version
              env_vars shell_commands description w Hfresh Hvar) as [Hadd _].
  eexists _, _. split; [exact Hadd|].
  assert (Hl : Forall (fun x => ~ same_name name' x) (environments w)).
  { eapply Forall_impl; [exact Hfresh|]. intros x Hx Hs. apply Hx.
    apply (same_name_variant name name' x Hvar), Hs. }
  split.
  - eapply (delete_environment_first name' (environments w) _ []);
      [reflexivity | exact Hl | symmetry; exact Hvar].
  - rewrite environments_stored, app_nil_r. split; [reflexivity|].
    split; [|reflexivity]. cbn [history_file]. apply switches_after_load.
Qed.

Lemma add_then_delete_witness :
  Forall (fun e => ~ same_name "Api" e) (environments Posix.stocked) /\
  case_variant "Api" "API" /\
  exists w1 w2,
    add_environment "Api" "/srv/api" None None None None "" Posix.stocked
      = Returned true w1 /\
    delete_environment "API" w1 = Returned true w2 /\
    environments w2 = environments Posix.stocked.
Proof.
  assert (Hfresh : Forall (fun e => ~ same_name "Api" e) (environments Posix.stocked)).
  { repeat constructor; vm_compute; discriminate. }
  assert (Hvar : case_variant "Api" "API") by reflexivity.
  split; [exact Hfresh|]. split; [exact Hvar|].
  destruct (add_then_delete Posix.stocked "Api" "API" "/srv/api" None None None
              None "" Hfresh Hvar) as (w1 & w2 & Ha & Hd & He & _).
  exists w1, w2. repeat split; assumption.
Defined.

(** X5. Adding, deleting or switching under one name does not change what
    [get_environment] returns for a name that differs from it under case
    folding. *)
Theorem other_lookups_unchanged {host : Host} (w : World) (name name2 : string)
    (r : option Env.t) (w0 : World) :
  str_lower name2 <> str_lower name ->
  get_environment name2 w = Returned r w0 ->
  (forall (project_path : string) (python_env node_version : option string)
          (env_vars : option (list (string * string)))
          (shell_commands : option (list string)) (description : string)
          (b : bool) (w1 : World),
      add_environment name project_path python_env node_version env_vars
                      shell_commands description w = Returned b w1 ->
      exists w2, get_environment name2 w1 = Returned r w2) /\
  (forall (b : bool) (w1 : World),
      delete_environment name w = Returned b w1 ->
      exists w2, get_environment name2 w1 = Returned r w2) /\
  (forall (cmds : option (list string)) (w1 : World),
      switch_environment name w = Returned cmds w1 ->
      exists w2, get_environment name2 w1 = Returned r w2).
Proof.
  intros Hne Hget. rewrite get_environment_run in Hget.
  injection Hget as Hr _. subst r.
  assert (Hskip : forall x, same_name name x -> ~ same_name name2 x)
    by (intros x; apply other_name, Hne).
  destruct (find_cases name (environments w))
    as [(l1 & e & l2 & Hw & Hl1 & He)|Habs].
  - (* a profile has the name *)
    split; [|split].
    + intros project_path python_env node_version env_vars shell_commands
             description b w1.
      rewrite add_environment_taken
        by (rewrite Hw, (list_find_first _ _ _ _ Hl1 He); eauto).
      intros [= _ <-]. eexists. rewrite get_environment_run.
      rewrite environments_after_load. reflexivity.
    + intros b w1. rewrite (delete_environment_first _ _ _ _ _ Hw Hl1 He).
      intros [= _ <-]. eexists. rewrite get_environment_run, environments_stored.
      rewrite Hw, (first_match_skip _ l1 e l2 (Hskip e He)). reflexivity.
    + intros cmds w1. rewrite (switch_environment_first _ _ _ _ _ Hw Hl1 He).
      intros [= _ <-]. eexists. rewrite get_environment_run, environments_stored.
      rewrite Hw, (first_match_skip _ l1 e l2 (Hskip e He)).
      rewrite (first_match_skip _ l1 (Env.used _ e) l2 (Hskip _ He)).
      reflexivity.
  - (* no profile has the name *)
    split; [|split].
    + intros project_path python_env node_version env_vars shell_commands
             description b w1.
      rewrite (add_environment_fresh _ _ _ _ _ _ _ _ (list_find_absent _ _ Habs)).
      intros [= _ <-]. eexists. rewrite get_environment_run, environments_stored.
      rewrite (first_match_skip (same_name name2) (environments w) _ []);
        [|apply Hskip; reflexivity].
      rewrite app_nil_r. reflexivity.
    + intros b w1. rewrite (delete_environment_absent _ _ Habs).
      intros [= _ <-]. eexists. rewrite get_environment_run.
      rewrite environments_after_load. reflexivity.
    + intros cmds w1. rewrite (switch_environment_absent _ _ Habs).
      intros [= _ <-]. eexists. rewrite get_environment_run.
      rewrite environments_after_load. reflexivity.
Qed.

Lemma other_lookups_unchanged_witness :
  str_lower "web" <> str_lower "DEMO" /\
  get_environment "web" Posix.stocked = Returned (Some Posix.web) Posix.stocked /\
  (exists cmds w1 w2,
      switch_environment "DEMO" Posix.stocked = Returned cmds w1 /\
      get_environment "web" w1 = Returned (Some Posix.web) w2) /\
  (exists b w1 w2,
      delete_environment "DEMO" Posix.stocked = Returned b w1 /\
      get_environment "web" w1 = Returned (Some Posix.web) w2).
Proof.
  assert (Hne : str_lower "web" <> str_lower "DEMO") by (vm_compute; discriminate).
  assert (Hget : get_environment "web" Posix.stocked
                 = Returned (Some Posix.web) Posix.stocked) by reflexivity.
  split; [exact Hne|]. split; [exact Hget|].
  destruct (other_lookups_unchanged Posix.stocked "DEMO" "web" _ _ Hne Hget)
    as (_ & Hdel & Hsw).
  split.
  - destruct (switch_environment "DEMO" Posix.stocked) as [cmds w1|x] eqn:E;
      [|vm_compute in E; discriminate].
    destruct (Hsw cmds w1 eq_refl) as [w2 H2]. exists cmds, w1, w2. split; [reflexivity | exact H2].
  - destruct (delete_environment "DEMO" Posix.stocked) as [b w1|x] eqn:E;
      [|vm_compute in E; discriminate].
    destruct (Hdel b w1 eq_refl) as [w2 H2]. exists b, w1, w2. split; [reflexivity | exact H2].
Defined.

(** ** Further properties of the command list and of the history *)

(** X7. The command list of any profile starts with the directory change
    and ends with the profile's custom commands as they are stored; the
    activation takes no line or two; and every variable has its own line,
    in stored order, right after the comment of the variable section:
    [set K=V] on Windows and [export K="V"] elsewhere. *)
Theorem switch_commands_shape {host : Host} (e : Env.t) :
  head (switch_commands e) = Some ("cd " +:+ Env.project_path e) /\
  Env.shell_commands e `suffix_of` switch_commands e /\
  (length (activation e) = 0%nat \/ length (activation e) = 2%nat) /\
  length (switch_commands e) =
    (1 + length (activation e)
     + match Env.env_vars e with [] => 0 | vars => S (length vars) end
     + match Env.shell_commands e with [] => 0 | cmds => S (length cmds) end)%nat /\
  (forall (i : nat) (key value : string),
      Env.env_vars e !! i = Some (key, value) ->
      switch_commands e !! (1 + length (activation e) + S i)%nat =
      Some (if win32 then "set " +:+ key +:+ "=" +:+ value
            else "export " +:+ key +:+ "=" +:+ dquote +:+ value +:+ dquote)).
Proof.
  split; [reflexivity|]. split; [|split; [|split]].
  - unfold switch_commands, custom.
    destruct (Env.shell_commands e) as [|c cs] eqn:E.
    + apply suffix_nil.
    + exists (["cd " +:+ Env.project_path e] ++ activation e ++ exports e
               ++ ["# Custom commands"]).
      rewrite <- !app_assoc. reflexivity.
  - unfold activation. destruct (truthy (Env.python_env e)); [|left; reflexivity].
    destruct (path_exists (Path s)); [|left; reflexivity]. cbv zeta.
    destruct (path_exists (activate_script (Path s))); [right|left]; reflexivity.
  - unfold switch_commands, exports, custom. rewrite !length_app. cbn [length].
    destruct (Env.env_vars e), (Env.shell_commands e); cbn [length];
      rewrite ?length_map; cbn [length]; lia.
  - intros i key value Hi. unfold switch_commands.
    change (["cd " +:+ Env.project_path e] ++ activation e ++ exports e ++ custom e)
      with (("cd " +:+ Env.project_path e) :: (activation e ++ exports e ++ custom e)).
    change ((?x :: ?l) !! (1 + ?n + ?m)%nat) with (l !! (n + m)%nat).
    rewrite lookup_app_r by lia.
    replace (length (activation e) + S i - length (activation e))%nat with (S i) by lia.
    unfold exports. destruct (Env.env_vars e) as [|v vs] eqn:E; [discriminate|].
    rewrite <- E in *. clear E.
    pose proof (lookup_lt_Some _ _ _ Hi) as Hlt.
    rewrite lookup_app_l by (cbn [length]; rewrite length_map; lia).
    change ((?x :: ?l) !! S ?n) with (l !! n).
    change (map ?f ?l) with (f <$> l). rewrite list_lookup_fmap, Hi. reflexivity.
Qed.

Lemma switch_commands_shape_witness :
  Env.env_vars Posix.ghost !! 0%nat = Some ("A", "1") /\
  switch_commands Posix.ghost !! 2%nat =
    Some ("export A=" +:+ dquote +:+ "1" +:+ dquote) /\
  Env.shell_commands Posix.ghost `suffix_of` switch_commands Posix.ghost.
Proof.
  assert (H : Env.env_vars Posix.ghost !! 0%nat = Some ("A", "1")) by reflexivity.
  destruct (switch_commands_shape Posix.ghost) as (_ & Hsuf & _ & _ & Hvar).
  split; [exact H|]. split; [exact (Hvar 0%nat "A" "1" H) | exact Hsuf].
Defined.

(** X8. [get_history] only reads: for every limit it returns a tail of
    the log and leaves the world as it is, also when there is no history
    file (the result is then empty and no file is created); for a limit of
    at least 1 the tail holds [min limit (length of the log)] entries. *)
Theorem get_history_reads_tail {host : Host} (w : World) (limit : Z) :
  exists r,
    get_history limit w = Returned r w /\
    r `suffix_of` switches w /\
    (history_file w = None -> r = []) /\
    ((0 < limit)%Z ->
     length r = Nat.min (Z.to_nat limit) (length (switches w))).
Proof.
  eexists. split; [apply get_history_run|]. split; [|split].
  - unfold slice_from. apply suffix_drop.
  - intros E. unfold switches. rewrite E. unfold slice_from. apply drop_nil.
  - intros Hpos.
    rewrite <- (Z2Nat.id limit) at 1 by lia.
    rewrite slice_from_neg by lia. apply lastn_length.
Qed.

Lemma get_history_reads_tail_witness :
  (0 < 2)%Z /\
  exists r,
    get_history 2 Examples.travelled = Returned r Examples.travelled /\
    r `suffix_of` Examples.five /\
    length r = 2%nat.
Proof.
  assert (Hpos : (0 < 2)%Z) by lia.
  split; [exact Hpos|].
  destruct (get_history_reads_tail Examples.travelled 2) as (r & Hrun & Hsuf & _ & Hlen).
  exists r. split; [exact Hrun|]. split; [exact Hsuf|]. exact (Hlen Hpos).
Defined.

(** The tails of a log of five entries, and of no log at all. *)
Example get_history_examples :
  get_history 2 Examples.travelled =
    Returned [Switch.mk "d" (isoformat_now 3); Switch.mk "e" (isoformat_now 4)]
             Examples.travelled /\
  get_history 10 Examples.travelled = Returned Examples.five Examples.travelled /\
  get_history 7 Posix.first_run = Returned [] Posix.first_run.
Proof. repeat split. Qed.

(** X9. [log_switch] never raises and does not look at the profiles: it
    appends an entry with the given name and the clock reading it takes,
    keeps the last 100 entries in their order, so that the log then holds
    [min 100 (n + 1)] entries with the new one last, and the profiles are
    as they were. *)
Theorem log_switch_appends {host : Host} (w : World) (env_name : string) :
  exists w',
    log_switch env_name w = Returned tt w' /\
    switches w' =
      lastn 100 (switches w ++ [Switch.mk env_name (isoformat_now (ticks w))]) /\
    last (switches w') = Some (Switch.mk env_name (isoformat_now (ticks w))) /\
    length (switches w') = Nat.min 100 (S (length (switches w))) /\
    environments w' = environments w /\
    ticks w' = S (ticks w).
Proof.
  eexists. split; [apply log_switch_run|].
  rewrite switches_stored, (slice_from_neg 100) by lia.
  split; [reflexivity|]. split; [apply last_lastn_snoc; lia|].
  split; [rewrite lastn_length, length_app; cbn [length]; lia|].
  split; [|reflexivity].
  unfold environments at 1. cbn [envs_file].
  destruct (history_file w); reflexivity.
Qed.

(** ** Listing *)

Lemma append_cons (c : ascii) (s t : string) :
  String c s +:+ t = String c (s +:+ t).
Proof. reflexivity. Qed.

Lemma append_empty_l (t : string) : "" +:+ t = t.
Proof. reflexivity. Qed.

Lemma append_empty_r (s : string) : s +:+ "" = s.
Proof. induction s as [|c s IH]; [reflexivity|]. rewrite append_cons, IH. reflexivity. Qed.

Lemma prefix_spec (n h : string) :
  String.prefix n h = true <-> exists b, h = n +:+ b.
Proof.
  revert h. induction n as [|c n IH]; intros h.
  - split; [intros _; exists h; reflexivity | intros _; destruct h; reflexivity].
  - destruct h as [|d h]; cbn;
      [split; [discriminate | intros [b Hb]; discriminate]|].
    destruct (ascii_dec c d) as [->|Hne].
    + rewrite IH. split; intros [b Hb]; exists b;
        rewrite append_cons in *; congruence.
    + split; [discriminate | intros [b Hb]; rewrite append_cons in Hb; congruence].
Qed.

(** [contains] is the substring test. *)
Lemma contains_spec (n h : string) :
  contains n h = true <-> exists a b, h = a +:+ n +:+ b.
Proof.
  induction h as [|d h IH]; cbn [contains].
  - rewrite orb_false_r, prefix_spec. split.
    + intros [b Hb]. exists "", b. exact Hb.
    + intros (a & b & Hab). destruct a; [exists b; exact Hab | discriminate].
  - rewrite orb_true_iff, prefix_spec, IH. split.
    + intros [[b Hb]|(a & b & Hab)].
      * exists "", b. exact Hb.
      * exists (String d a), b. rewrite append_cons. congruence.
    + intros (a & b & Hab). destruct a as [|c a].
      * left. exists b. exact Hab.
      * right. exists a, b. rewrite append_cons in Hab. congruence.
Qed.

Lemma contains_refl (s : string) : contains s s = true.
Proof.
  apply contains_spec. exists "", "".
  rewrite append_empty_l, append_empty_r. reflexivity.
Qed.

Section ListingLemmas.
Context {host : Host}.

Lemma list_environments_run (search : option string) (w : World) :
  list_environments search w =
  Returned (match truthy search with
            | Some s => filter (fun e => matches (str_lower s) e) (environments w)
            | None => environments w
            end) (after_load w).
Proof.
  unfold list_environments. run. rewrite load_environments_run.
  destruct (truthy search); reflexivity.
Qed.

Lemma matches_spec (s : string) (e : Env.t) :
  matches s e = true <->
  (exists a b, str_lower (Env.name e) = a +:+ s +:+ b) \/
  (exists a b, str_lower (Env.description e) = a +:+ s +:+ b) \/
  (exists a b, str_lower (Env.project_path e) = a +:+ s +:+ b).
Proof.
  unfold matches. rewrite !orb_true_iff, !contains_spec. tauto.
Qed.

End ListingLemmas.

(** X10. Without a search text ([None]) or with the empty one,
    [list_environments] returns every stored profile in stored order and
    changes no profile; when the environments file exists the world is as
    it was. *)
Theorem list_unfiltered {host : Host} (w : World) (search : option string) :
  search = None \/ search = Some "" ->
  exists w',
    list_environments search w = Returned (environments w) w' /\
    environments w' = environments w /\
    (is_Some (envs_file w) -> w' = w).
Proof.
  intros Hs. exists (after_load w). rewrite list_environments_run.
  split; [destruct Hs as [-> | ->]; reflexivity|].
  split; [apply environments_after_load | apply after_load_stored].
Qed.

Lemma list_unfiltered_witness :
  (Some "" = None \/ Some "" = Some "") /\
  list_environments (Some "") Examples.library =
    Returned [Posix.demo; Examples.archive; Posix.web] Examples.library.
Proof.
  assert (H : Some "" = None \/ Some "" = Some "") by (right; reflexivity).
  split; [exact H|].
  destruct (list_unfiltered Examples.library (Some "") H) as (w' & Hrun & _ & Hid).
  rewrite Hrun. f_equal. apply Hid. cbn. eauto.
Defined.

(** X11. Listing order is insertion order: after a successful
    [add_environment] the unfiltered list is the list there was before,
    followed by the new profile. *)
Theorem list_after_add {host : Host} (w : World) (name project_path : string)
    (python_env node_version : option string)
    (env_vars : option (list (string * string)))
    (shell_commands : option (list string)) (description : string) :
  Forall (fun e => ~ same_name name e) (environments w) ->
  exists w1 env,
    add_environment name project_path python_env node_version env_vars
                    shell_commands description w = Returned true w1 /\
    list_environments None w1 = Returned (environments w ++ [env]) w1 /\
    Env.name env = name.
Proof.
  intros Hfresh.
  destruct (add_then_find name name project_path python_env node_version
              env_vars shell_commands description w Hfresh eq_refl) as [Hadd _].
  eexists _, _. split; [exact Hadd|].
  rewrite list_environments_run. split; reflexivity.
Qed.

Lemma list_after_add_witness :
  Forall (fun e => ~ same_name "Api" e) (environments Posix.stocked) /\
  exists w1 env,
    add_environment "Api" "/srv/api" None None None None "" Posix.stocked
      = Returned true w1 /\
    list_environments None w1 =
      Returned ([Posix.demo; Posix.ghost; Posix.web] ++ [env]) w1 /\
    Env.name env = "Api".
Proof.
  assert (Hfresh : Forall (fun e => ~ same_name "Api" e) (environments Posix.stocked)).
  { repeat constructor; vm_compute; discriminate. }
  split; [exact Hfresh|].
  exact (list_after_add Posix.stocked "Api" "/srv/api" None None None None "" Hfresh).
Defined.

(** X12. With a non-empty search text, [list_environments] returns, in
    stored order, exactly the stored profiles whose case-folded name,
    description or project path has the case-folded text as a substring;
    no profile is changed. *)
Theorem list_filtered {host : Host} (w : World) (search : string) :
  search <> "" ->
  exists r w',
    list_environments (Some search) w = Returned r w' /\
    r `sublist_of` environments w /\
    (forall e, e ∈ r <->
       e ∈ environments w /\
       ((exists a b, str_lower (Env.name e) = a +:+ str_lower search +:+ b) \/
        (exists a b, str_lower (Env.description e) = a +:+ str_lower search +:+ b) \/
        (exists a b, str_lower (Env.project_path e) = a +:+ str_lower search +:+ b))) /\
    environments w' = environments w.
Proof.
  intros Hne. eexists _, _. split; [apply list_environments_run|].
  unfold truthy. rewrite decide_False by assumption.
  split; [apply sublist_filter|]. split; [|apply environments_after_load].
  intros e. rewrite list_elem_of_filter, <- matches_spec, Is_true_true. tauto.
Qed.

Lemma list_filtered_witness :
  "REPORTS" <> "" /\
  exists r w',
    list_environments (Some "REPORTS") Examples.library = Returned r w' /\
    r `sublist_of` environments Examples.library /\
    Examples.archive ∈ r /\ ~ Posix.demo ∈ r.
Proof.
  assert (Hne : "REPORTS" <> "") by discriminate.
  split; [exact Hne|].
  destruct (list_filtered Examples.library "REPORTS" Hne) as (r & w' & Hrun & Hsub & Hin & _).
  exists r, w'. split; [exact Hrun|]. split; [exact Hsub|]. split.
  - apply Hin. split; [apply list_elem_of_further, list_elem_of_here|].
    left. exists "quarterly-", "-archive-2024". reflexivity.
  - intros Hd. apply Hin in Hd as [_ Hd].
    rewrite <- matches_spec in Hd. vm_compute in Hd. discriminate.
Defined.

(** X13. A stored profile is always found by its own name: searching
    for any case variant of the name of a stored profile returns a list
    that holds the profile. *)
Theorem list_finds_by_name {host : Host} (w : World) (e : Env.t) (search : string) :
  e ∈ environments w ->
  case_variant (Env.name e) search ->
  exists r,
    list_environments (Some search) w = Returned r w /\ e ∈ r.
Proof.
  intros Hin Hvar. eexists. rewrite list_environments_run.
  rewrite after_load_stored by (eapply stored_of_elem, Hin).
  split; [reflexivity|]. unfold truthy.
  destruct (decide (search = "")); [exact Hin|].
  apply list_elem_of_filter. split; [|exact Hin].
  apply Is_true_true. unfold matches. rewrite Hvar, contains_refl. reflexivity.
Qed.

Lemma list_finds_by_name_witness :
  Posix.web ∈ environments Examples.library /\
  case_variant (Env.name Posix.web) "WEB" /\
  exists r,
    list_environments (Some "WEB") Examples.library = Returned r Examples.library /\
    Posix.web ∈ r.
Proof.
  assert (Hin : Posix.web ∈ environments Examples.library).
  { apply list_elem_of_further, list_elem_of_further, list_elem_of_here. }
  assert (Hvar : case_variant (Env.name Posix.web) "WEB") by reflexivity.
  split; [exact Hin|]. split; [exact Hvar|].
  exact (list_finds_by_name Examples.library Posix.web "WEB" Hin Hvar).
Defined.

(** ** Invariants of the store *)

Section Invariants.
Context {host : Host}.

(** The two invariants: unique names and a log within the cap. *)
Lemma after_load_keeps (w : World) :
  unique_names (environments w) -> (length (switches w) <= 100)%nat ->
  unique_names (environments (after_load w)) /\
  (length (switches (after_load w)) <= 100)%nat.
Proof. rewrite environments_after_load, switches_after_load. auto. Qed.

Lemma perform_keeps (c : call) (w : World) :
  unique_names (environments w) -> (length (switches w) <= 100)%nat ->
  exists w',
    perform c w = Returned tt w' /\
    unique_names (environments w') /\ (length (switches w') <= 100)%nat.
Proof.
  intros Hu Hc. pose proof (after_load_keeps w Hu Hc) as Hal.
  destruct c as [|name project_path python_env node_version env_vars
                  shell_commands description|name|search|name|name|env_name|limit];
    unfold perform; run.
  - rewrite init_config_run. eexists. split; [reflexivity|]. split; assumption.
  - destruct (add_environment name project_path python_env node_version env_vars
                shell_commands description w) as [b w'|x] eqn:E.
    + eexists. split; [reflexivity|]. split; [eapply add_keeps_unique; eassumption|].
      destruct (find_cases name (environments w))
        as [(l1 & e & l2 & Hw & Hl1 & He)|Habs].
      * rewrite add_environment_taken in E
          by (rewrite Hw, (list_find_first _ _ _ _ Hl1 He); eauto).
        injection E as _ <-. apply Hal.
      * rewrite (add_environment_fresh _ _ _ _ _ _ _ _ (list_find_absent _ _ Habs)) in E.
        injection E as _ <-. unfold switches at 1. cbn [history_file].
        apply Hal.
    + destruct (find_cases name (environments w))
        as [(l1 & e & l2 & Hw & Hl1 & He)|Habs].
      * rewrite add_environment_taken in E
          by (rewrite Hw, (list_find_first _ _ _ _ Hl1 He); eauto).
        discriminate.
      * rewrite (add_environment_fresh _ _ _ _ _ _ _ _ (list_find_absent _ _ Habs)) in E.
        discriminate.
  - rewrite get_environment_run. eexists. split; [reflexivity | exact Hal].
  - rewrite list_environments_run. eexists. split; [reflexivity | exact Hal].
  - destruct (find_cases name (environments w))
      as [(l1 & e & l2 & Hw & Hl1 & He)|Habs].
    + rewrite (delete_environment_first _ _ _ _ _ Hw Hl1 He).
      eexists. split; [reflexivity|]. split; [|exact Hc].
      rewrite environments_stored. apply (unique_names_sublist (environments w) _); [|exact Hu].
      rewrite Hw. apply sublist_app; [reflexivity|]. apply sublist_cons. reflexivity.
    + rewrite (delete_environment_absent _ _ Habs).
      eexists. split; [reflexivity | exact Hal].
  - destruct (find_cases name (environments w))
      as [(l1 & e & l2 & Hw & Hl1 & He)|Habs].
    + rewrite (switch_environment_first _ _ _ _ _ Hw Hl1 He).
      eexists. split; [reflexivity|]. rewrite environments_stored, switches_stored.
      split; [apply unique_names_used; rewrite <- Hw; exact Hu|].
      rewrite (slice_from_neg 100), lastn_length by lia. lia.
    + rewrite (switch_environment_absent _ _ Habs).
      eexists. split; [reflexivity | exact Hal].
  - rewrite log_switch_run. eexists. split; [reflexivity|].
    rewrite switches_stored. split.
    + unfold environments at 1. cbn [envs_file].
      destruct (history_file w); exact Hu.
    + rewrite (slice_from_neg 100), lastn_length by lia. lia.
  - rewrite get_history_run. eexists. split; [reflexivity|]. split; assumption.
Qed.

End Invariants.

(** ** The [--env] arguments *)

Lemma split_eq_spec (e key value : string) :
  split_eq e = Some (key, value) <->
  e = key +:+ "=" +:+ value /\ contains "=" key = false.
Proof.
  revert key. induction e as [|c e IH]; intros key; cbn [split_eq].
  - split; [discriminate|]. intros [H _]. destruct key; discriminate.
  - destruct (decide (c = "="%char)) as [->|Hc].
    + split.
      * intros [= <- <-]. split; reflexivity.
      * intros [H Hk]. destruct key as [|d key].
        -- rewrite append_empty_l, append_cons, append_empty_l in H. congruence.
        -- rewrite append_cons in H. injection H as <- _.
           cbn in Hk. destruct (ascii_dec "=" "="); [|congruence].
           destruct key; discriminate.
    + destruct (split_eq e) as [[k v]|] eqn:E.
      * split.
        -- intros [= <- <-]. destruct (proj1 (IH k) eq_refl) as [-> Hk].
           split; [rewrite append_cons; reflexivity|].
           cbn [contains String.prefix]. destruct (ascii_dec "=" c); [congruence|].
           exact Hk.
        -- intros [H Hk]. destruct key as [|d key].
           ++ rewrite append_empty_l, append_cons in H. congruence.
           ++ rewrite append_cons in H. injection H as <- H.
              cbn [contains String.prefix] in Hk.
              destruct (ascii_dec "=" c); [congruence|]. cbn [orb] in Hk.
              pose proof (proj2 (IH key) (conj H Hk)) as H2.
              injection H2 as <- <-. reflexivity.
      * split; [discriminate|]. intros [H Hk]. destruct key as [|d key].
        -- rewrite append_empty_l, append_cons in H. congruence.
        -- rewrite append_cons in H. injection H as <- H.
           cbn [contains String.prefix] in Hk.
           destruct (ascii_dec "=" c); [congruence|]. cbn [orb] in Hk.
           pose proof (proj2 (IH key) (conj H Hk)) as H2. discriminate.
Qed.

Lemma split_eq_None (e : string) :
  split_eq e = None <-> contains "=" e = false.
Proof.
  induction e as [|c e IH]; cbn [split_eq contains String.prefix].
  - split; reflexivity.
  - destruct (decide (c = "="%char)) as [->|Hc].
    + destruct (ascii_dec "=" "="); [|congruence].
      destruct e; split; discriminate.
    + destruct (ascii_dec "=" c); [congruence|]. cbn [orb]. rewrite <- IH.
      destruct (split_eq e) as [[k v]|]; split; congruence.
Qed.

Lemma dict_set_key_in (key value x : string) (d : list (string * string)) :
  x ∈ map fst (dict_set key value d) -> x = key \/ x ∈ map fst d.
Proof.
  induction d as [|[k v] d IH]; cbn [dict_set map fst].
  - intros H. apply list_elem_of_singleton in H. left. exact H.
  - destruct (decide (k = key)) as [->|Hk]; cbn [map fst].
    + intros H. right. exact H.
    + intros H. apply elem_of_cons in H as [->|H].
      * right. apply list_elem_of_here.
      * destruct (IH H) as [->|Hin]; [left; reflexivity|].
        right. apply list_elem_of_further, Hin.
Qed.

Lemma dict_set_NoDup (key value : string) (d : list (string * string)) :
  NoDup (map fst d) -> NoDup (map fst (dict_set key value d)).
Proof.
  induction d as [|[k v] d IH]; cbn [dict_set map fst].
  - intros _. apply NoDup_singleton.
  - intros Hd. apply NoDup_cons in Hd as [Hk Hd].
    destruct (decide (k = key)) as [->|Hne]; cbn [map fst].
    + apply NoDup_cons. split; assumption.
    + apply NoDup_cons. split; [|apply IH, Hd].
      intros Hin. apply dict_set_key_in in Hin as [->|Hin]; [congruence | auto].
Qed.

Lemma dict_set_in (key value : string) (d : list (string * string)) :
  (key, value) ∈ dict_set key value d.
Proof.
  induction d as [|[k v] d IH]; cbn [dict_set].
  - apply list_elem_of_here.
  - destruct (decide (k = key)) as [->|Hne].
    + apply list_elem_of_here.
    + apply list_elem_of_further, IH.
Qed.

Lemma dict_set_from (key value : string) (d : list (string * string)) (p : string * string) :
  p ∈ dict_set key value d -> p = (key, value) \/ p ∈ d.
Proof.
  induction d as [|[k v] d IH]; cbn [dict_set].
  - intros H. apply list_elem_of_singleton in H. left. exact H.
  - destruct (decide (k = key)) as [->|Hne].
    + intros H. apply elem_of_cons in H as [->|H]; [left; reflexivity|].
      right. apply list_elem_of_further, H.
    + intros H. apply elem_of_cons in H as [->|H].
      * right. apply list_elem_of_here.
      * destruct (IH H) as [->|Hin]; [left; reflexivity|].
        right. apply list_elem_of_further, Hin.
Qed.

Section EnvArgumentLemmas.
Variable strip : string -> string.

Lemma parse_env_from_app (d : list (string * string)) (args1 args2 : list string) :
  parse_env_from strip d (args1 ++ args2) =
  parse_env_from strip (parse_env_from strip d args1) args2.
Proof.
  revert d. induction args1 as [|e args1 IH]; intros d; [reflexivity|].
  cbn [app parse_env_from]. destruct (split_eq e) as [[k v]|]; apply IH.
Qed.

Lemma parse_env_from_NoDup (d : list (string * string)) (args : list string) :
  NoDup (map fst d) -> NoDup (map fst (parse_env_from strip d args)).
Proof.
  revert d. induction args as [|e args IH]; intros d Hd; [exact Hd|].
  cbn [parse_env_from]. destruct (split_eq e) as [[k v]|]; apply IH; [|exact Hd].
  apply dict_set_NoDup, Hd.
Qed.

Lemma parse_env_from_origin (d : list (string * string)) (args : list string)
    (p : string * string) :
  p ∈ parse_env_from strip d args ->
  p ∈ d \/
  exists e key value,
    e ∈ args /\ split_eq e = Some (key, value) /\ p = (strip key, strip value).
Proof.
  revert d. induction args as [|e args IH]; intros d; cbn [parse_env_from].
  - intros H. left. exact H.
  - destruct (split_eq e) as [[k v]|] eqn:E; intros H.
    + destruct (IH _ H) as [Hin|(e' & k' & v' & He' & Hs & Hp)].
      * apply dict_set_from in Hin as [->|Hin]; [|left; exact Hin].
        right. exists e, k, v. split; [apply list_elem_of_here|]. split; [exact E | reflexivity].
      * right. exists e', k', v'. split; [apply list_elem_of_further, He'|]. split; assumption.
    + destruct (IH _ H) as [Hin|(e' & k' & v' & He' & Hs & Hp)]; [left; exact Hin|].
      right. exists e', k', v'. split; [apply list_elem_of_further, He'|]. split; assumption.
Qed.

Lemma parse_env_as_from (args : list string) :
  parse_env strip (Some args) = parse_env_from strip [] args.
Proof. destruct args; reflexivity. Qed.

End EnvArgumentLemmas.

(** X15. An argument of [--env] is split at its first [=]: the key is the
    text before it and holds no [=], the value is all the text after it
    (further [=] signs included), and key, [=] and value put together are
    the argument; an argument is skipped exactly when it holds no [=]. *)
Theorem split_eq_round_trip (e : string) :
  (forall key value,
      split_eq e = Some (key, value) ->
      e = key +:+ "=" +:+ value /\ contains "=" key = false) /\
  (forall key value,
      contains "=" key = false ->
      split_eq (key +:+ "=" +:+ value) = Some (key, value)) /\
  (split_eq e = None <-> contains "=" e = false).
Proof.
  split; [|split].
  - intros key value H. apply split_eq_spec, H.
  - intros key value Hk. apply split_eq_spec. split; [reflexivity | exact Hk].
  - apply split_eq_None.
Qed.

Lemma split_eq_round_trip_witness :
  split_eq "URL=http://host/?a=b" = Some ("URL", "http://host/?a=b") /\
  "URL=http://host/?a=b" = "URL" +:+ "=" +:+ "http://host/?a=b" /\
  contains "=" "URL" = false /\
  split_eq "no value" = None.
Proof.
  assert (H : split_eq "URL=http://host/?a=b" = Some ("URL", "http://host/?a=b"))
    by reflexivity.
  destruct (split_eq_round_trip "URL=http://host/?a=b") as (H1 & _ & _).
  destruct (H1 _ _ H) as [Ha Hb].
  split; [exact H|]. split; [exact Ha|]. split; [exact Hb | reflexivity].
Defined.

(** X16. The dictionary that [main] builds from the [--env] arguments has
    pairwise distinct keys; each of its entries is the stripped key and
    the stripped value of one of the arguments that hold an [=]; and the
    last argument, when it holds an [=], has its entry in the dictionary
    (a later assignment of a key replaces an earlier one). *)
Theorem parse_env_dictionary (strip : string -> string) (args : list string) :
  NoDup (map fst (parse_env strip (Some args))) /\
  (forall key value,
      (key, value) ∈ parse_env strip (Some args) ->
      exists e k v,
        e ∈ args /\ split_eq e = Some (k, v) /\
        key = strip k /\ value = strip v) /\
  (forall front e k v,
      args = front ++ [e] ->
      split_eq e = Some (k, v) ->
      (strip k, strip v) ∈ parse_env strip (Some args)).
Proof.
  rewrite parse_env_as_from. split; [|split].
  - apply parse_env_from_NoDup. constructor.
  - intros key value H.
    apply parse_env_from_origin in H as [H|(e & k & v & He & Hs & [= -> ->])].
    + inversion H.
    + exists e, k, v. repeat split; assumption.
  - intros front e k v -> Hs. rewrite parse_env_from_app.
    cbn [parse_env_from]. rewrite Hs. apply dict_set_in.
Qed.

Lemma parse_env_dictionary_witness :
  parse_env Examples.strip (Some ["A=1"; "novalue"; " B = x=y "; "A= 2"])
    = [("A", "2"); ("B", "x=y")] /\
  NoDup (map fst (parse_env Examples.strip
                    (Some ["A=1"; "novalue"; " B = x=y "; "A= 2"]))) /\
  ("A", "2") ∈ parse_env Examples.strip
                 (Some ["A=1"; "novalue"; " B = x=y "; "A= 2"]).
Proof.
  destruct (parse_env_dictionary Examples.strip
              ["A=1"; "novalue"; " B = x=y "; "A= 2"]) as (Hnd & _ & Hlast).
  split; [reflexivity|]. split; [exact Hnd|].
  exact (Hlast ["A=1"; "novalue"; " B = x=y "] "A= 2" "A" " 2" eq_refl eq_refl).
Defined.

(** ** The rows of the table *)

Lemma length_append (s t : string) :
  String.length (s +:+ t) = (String.length s + String.length t)%nat.
Proof.
  induction s as [|c s IH]; [reflexivity|].
  rewrite append_cons. cbn [String.length Nat.add]. rewrite IH. reflexivity.
Qed.

Lemma length_spaces (n : nat) : String.length (spaces n) = n.
Proof. induction n as [|n IH]; cbn; congruence. Qed.

Lemma length_ljust (width : nat) (s : string) :
  String.length (ljust width s) = Nat.max width (String.length s).
Proof. unfold ljust. rewrite length_append, length_spaces. lia. Qed.

Lemma length_str_take (n : nat) (s : string) :
  String.length (str_take n s) = Nat.min n (String.length s).
Proof.
  revert s. induction n as [|n IH]; intros [|c s]; cbn; try reflexivity.
  rewrite IH. reflexivity.
Qed.

Lemma length_str_drop (n : nat) (s : string) :
  String.length (str_drop n s) = (String.length s - n)%nat.
Proof.
  revert s. induction n as [|n IH]; intros [|c s]; cbn; try reflexivity.
  apply IH.
Qed.

Lemma length_str_slice_last (n : nat) (s : string) :
  (0 < n <= String.length s)%nat ->
  String.length (str_slice_from (- Z.of_nat n) s) = n.
Proof.
  intros H. unfold str_slice_from.
  destruct (Z.ltb_spec (- Z.of_nat n) 0) as [_|]; [|lia].
  rewrite length_str_drop. lia.
Qed.

(** X17. A row of the table is 72 characters plus the width of the use
    count, which is at least 8: the name is cut to 19 characters and
    padded to 20, and a path of more than 49 characters is shown as
    [...] and its last 46 characters, so that the path column is always 50
    wide.  With a use count of at most 8 characters the row is as wide as
    the 80-character rule of the table. *)
Theorem table_row_width (e : Env.t) :
  String.length (table_row e) =
    (72 + Nat.max 8 (String.length (pretty (Env.use_count e))))%nat /\
  ((String.length (pretty (Env.use_count e)) <= 8)%nat ->
   String.length (table_row e) = 80%nat).
Proof.
  assert (H : String.length (table_row e) =
              (72 + Nat.max 8 (String.length (pretty (Env.use_count e))))%nat).
  { unfold table_row. cbv zeta.
    rewrite !length_append, !length_ljust, length_str_take.
    change (String.length " ") with 1%nat.
    destruct (Nat.ltb_spec 49 (String.length (Env.project_path e))) as [Hlong|Hshort].
    - rewrite length_append, (length_str_slice_last 46) by lia.
      change (String.length "...") with 3%nat. lia.
    - lia. }
  split; [exact H|]. intros Hle. rewrite H. lia.
Qed.

Lemma table_row_width_witness :
  (String.length (pretty (Env.use_count Examples.archive)) <= 8)%nat /\
  String.length (table_row Examples.archive) = 80%nat /\
  table_row Examples.archive =
    "Quarterly-Reports-A  12       ...rojects/finance/quarterly-reports/archive-2024 ".
Proof.
  assert (H : (String.length (pretty (Env.use_count Examples.archive)) <= 8)%nat)
    by (vm_compute; lia).
  split; [exact H|].
  split; [exact (proj2 (table_row_width Examples.archive) H) | reflexivity].
Defined.

(** ** Usage statistics *)

Section Usage.
Context {host : Host}.


End Usage.



(** ** Queries that raise *)

Section RawLemmas.
Context {host : Host} {faults : Faults}.
Implicit Types (l : list Env.t) (e : Env.t) (w : World).

Ltac run_raw :=
  repeat (cbn [mbind mret M_bind M_ret envs_file history_file ticks] ||
          unfold mbind, mret, M_bind, M_ret, Raw.query_exists, Raw.query_resolve).

(** The activation either raises the first exception of its queries, or
    gives the lines that the answers of the host give. *)
Lemma raw_activation_run e w :
  Raw.activation e w =
  match Raw.fault_of (Env.python_env e) with
  | Some x => Raised x w
  | None => Returned (activation e) w
  end.
Proof.
  unfold Raw.activation, Raw.fault_of, activation, Raw.find_script, activate_script.
  destruct (truthy (Env.python_env e)) as [p|]; [|reflexivity].
  run_raw. destruct (exists_raises (Path p)); [reflexivity|].
  destruct (path_exists (Path p)); [|reflexivity].
  destruct win32; run_raw.
  - destruct (exists_raises (joinpath (joinpath (Path p) "Scripts") "activate.bat"));
      [reflexivity|].
    destruct (path_exists (joinpath (joinpath (Path p) "Scripts") "activate.bat"));
      match goal with
      | |- context [exists_raises ?q] => destruct (exists_raises q); reflexivity
      end.
  - destruct (exists_raises (joinpath (joinpath (Path p) "bin") "activate"));
      reflexivity.
Qed.

Lemma raw_switch_commands_run e w :
  Raw.switch_commands e w =
  match Raw.fault_of (Env.python_env e) with
  | Some x => Raised x w
  | None => Returned (switch_commands e) w
  end.
Proof.
  unfold Raw.switch_commands. run_raw. rewrite raw_activation_run.
  destruct (Raw.fault_of (Env.python_env e)); reflexivity.
Qed.

(** What [switch_environment] does for the first match: the use is
    recorded and logged, and then the commands are built or an exception
    of the queries leaves the call. *)
Lemma raw_switch_environment_first name l1 e l2 w :
  environments w = l1 ++ e :: l2 ->
  Forall (fun x => ~ same_name name x) l1 -> same_name name e ->
  Raw.switch_environment name w =
  let w' :=
    mkWorld
      (Some (l1 ++ Env.used (isoformat_now (ticks w)) e :: l2))
      (Some (slice_from (-100)
               (switches w ++ [Switch.mk name (isoformat_now (S (ticks w)))])))
      (S (S (ticks w))) in
  match Raw.fault_of (Env.python_env e) with
  | Some x => Raised x w'
  | None => Returned (Some (switch_commands e)) w'
  end.
Proof.
  intros Hw Hl1 He. unfold Raw.switch_environment. run.
  rewrite get_environment_run, Hw, (list_find_first _ _ _ _ Hl1 He).
  cbn [fmap option_fmap option_map snd].
  rewrite load_environments_run, after_load_idem, environments_after_load, Hw.
  rewrite (update_usage_first _ _ _ _ _ Hl1 He). run.
  rewrite log_switch_run. cbn [envs_file history_file ticks].
  rewrite ticks_after_load, raw_switch_commands_run.
  replace (switches (mkWorld _ (history_file (after_load w)) _))
    with (switches w) by (symmetry; apply switches_after_load).
  destruct (history_file (after_load w)), (Raw.fault_of (Env.python_env e));
    reflexivity.
Qed.

Lemma raw_switch_environment_absent name w :
  Forall (fun x => ~ same_name name x) (environments w) ->
  Raw.switch_environment name w = Returned None (after_load w).
Proof.
  intros H. unfold Raw.switch_environment. run.
  rewrite get_environment_run, (list_find_absent _ _ H). reflexivity.
Qed.

(** The files and the clock after a call do not depend on the queries. *)
Lemma raw_switch_environment_world name w :
  world_of (Raw.switch_environment name w) = world_of (switch_environment name w).
Proof.
  destruct (find_cases name (environments w))
    as [(l1 & e & l2 & Hw & Hl1 & He)|Habs].
  - rewrite (raw_switch_environment_first _ _ _ _ _ Hw Hl1 He),
            (switch_environment_first _ _ _ _ _ Hw Hl1 He).
    cbv zeta. destruct (Raw.fault_of (Env.python_env e)); reflexivity.
  - rewrite (raw_switch_environment_absent _ _ Habs),
            (switch_environment_absent _ _ Habs). reflexivity.
Qed.

Lemma raw_add_environment_run name project_path python_env node_version
    env_vars shell_commands description w :
  Raw.add_environment name project_path python_env node_version env_vars
                      shell_commands description w =
  match list_find (same_name name) (environments w), resolve_raises project_path with
  | None, Some x => Raised x (after_load w)
  | _, _ => add_environment name project_path python_env node_version env_vars
                            shell_commands description w
  end.
Proof.
  unfold Raw.add_environment, add_environment. run.
  rewrite load_environments_run.
  destruct (list_find (same_name name) (environments w)); [reflexivity|].
  run_raw. destruct (resolve_raises project_path); reflexivity.
Qed.





End RawLemmas.







(** X6. The command list does not depend on the usage statistics: when
    [switch_environment] returns a command list, the next call under any
    case variant of the name, on the same disk, returns the same list. *)
Theorem switch_again_same_commands {host : Host} {faults : Faults} (w w1 : World)
    (name name' : string) (cmds : list string) :
  case_variant name name' ->
  Raw.switch_environment name w = Returned (Some cmds) w1 ->
  exists w2, Raw.switch_environment name' w1 = Returned (Some cmds) w2.
Proof.
  intros Hvar Hrun.
  destruct (find_cases name (environments w))
    as [(l1 & e & l2 & Hw & Hl1 & He)|Habs].
  - rewrite (raw_switch_environment_first _ _ _ _ _ Hw Hl1 He) in Hrun.
    cbv zeta in Hrun.
    destruct (Raw.fault_of (Env.python_env e)) as [x|] eqn:Ef; [discriminate|].
    injection Hrun as <- <-.
    eexists.
    rewrite (raw_switch_environment_first name' l1
               (Env.used (isoformat_now (ticks w)) e) l2).
    + cbv zeta. cbn [Env.python_env Env.used]. rewrite Ef.
      rewrite switch_commands_used. reflexivity.
    + reflexivity.
    + eapply Forall_impl; [exact Hl1|]. intros x Hx Hs. apply Hx.
      apply (same_name_variant name name' x Hvar), Hs.
    + apply (same_name_variant name name' _ Hvar). exact He.
  - rewrite (raw_switch_environment_absent _ _ Habs) in Hrun. discriminate.
Qed.

Lemma switch_again_same_commands_witness :
  case_variant "web" "WEB" /\
  exists w1 w2,
    Raw.switch_environment "web" Posix.stocked =
      Returned (Some ["cd /srv/web"; "# Activate Python environment";
                      "source /opt/venv/bin/activate"]) w1 /\
    Raw.switch_environment "WEB" w1 =
      Returned (Some ["cd /srv/web"; "# Activate Python environment";
                      "source /opt/venv/bin/activate"]) w2.
Proof.
  assert (Hv : case_variant "web" "WEB") by reflexivity.
  split; [exact Hv|].
  set (w1 := world_of (Raw.switch_environment "web" Posix.stocked)).
  assert (Hrun : Raw.switch_environment "web" Posix.stocked =
                 Returned (Some ["cd /srv/web"; "# Activate Python environment";
                                 "source /opt/venv/bin/activate"]) w1)
    by (vm_compute; reflexivity).
  destruct (switch_again_same_commands Posix.stocked w1 "web" "WEB" _ Hv Hrun)
    as [w2 H2].
  exists w1, w2. split; [exact Hrun | exact H2].
Defined.

(** ** Invariants through exceptions *)

Section RawInvariants.
Context {host : Host} {faults : Faults}.

Lemma world_of_bind_unit {A : Type} (m : M A) (w w' : World) :
  (m;; mret tt) w = Returned tt w' -> world_of (m w) = w'.
Proof.
  unfold mbind, M_bind, mret, M_ret. destruct (m w); [|discriminate].
  intros [= <-]. reflexivity.
Qed.

Lemma world_of_perform (c : call) (w w' : World) :
  perform c w = Returned tt w' -> world_of (perform c w) = w'.
Proof. intros ->. reflexivity. Qed.

Lemma raw_perform_keeps (c : call) (w : World) :
  unique_names (environments w) -> (length (switches w) <= 100)%nat ->
  unique_names (environments (Raw.perform c w)) /\
  (length (switches (Raw.perform c w)) <= 100)%nat.
Proof.
  intros Hu Hc.
  destruct (perform_keeps c w Hu Hc) as (w' & Hrun & Hinv).
  destruct c as [|name project_path python_env node_version env_vars
                  shell_commands description|name|search|name|name|env_name|limit];
    try (unfold Raw.perform; rewrite (world_of_perform _ _ _ Hrun); exact Hinv).
  - (* add *)
    unfold Raw.perform. rewrite raw_add_environment_run.
    destruct (list_find (same_name name) (environments w)) as [q|];
      [|destruct (resolve_raises project_path) as [x|]];
      try (rewrite (world_of_bind_unit _ _ _ Hrun); exact Hinv).
    cbn [world_of]. apply after_load_keeps; assumption.
  - (* switch *)
    unfold Raw.perform. rewrite raw_switch_environment_world.
    rewrite (world_of_bind_unit _ _ _ Hrun). exact Hinv.
Qed.

End RawInvariants.

(** X14. Unique names and the cap of the history are invariants of the
    store: from a store with unique case-folded names and at most 100
    history entries, in particular from the empty store of a first run,
    every sequence of calls of [init_config], [add_environment],
    [get_environment], [list_environments], [delete_environment],
    [switch_environment], [log_switch] and [get_history], with any
    arguments and each call on the files the one before left, whether
    that one returned or raised from [resolve()] or [exists()], ends in a
    store with unique names and at most 100 history entries. *)
Theorem store_invariants_kept {host : Host} {faults : Faults}
    (cs : list call) (w : World) :
  unique_names (environments w) ->
  (length (switches w) <= 100)%nat ->
  unique_names (environments (Raw.perform_all cs w)) /\
  (length (switches (Raw.perform_all cs w)) <= 100)%nat.
Proof.
  unfold Raw.perform_all. revert w. induction cs as [|c cs IH]; intros w Hu Hc.
  - split; assumption.
  - cbn [fold_left]. destruct (raw_perform_keeps c w Hu Hc) as [Hu1 Hc1].
    apply IH; assumption.
Qed.

Lemma store_invariants_kept_witness :
  unique_names (environments Posix.first_run) /\
  (length (switches Posix.first_run) <= 100)%nat /\
  unique_names
    (environments
       (Raw.perform_all
          [Add "deep" "/srv/deep" (Some Refusing.deep_name) None None None "";
           Add "DEEP" "/other" None None None None "";
           Switch "Deep"; Log "unknown"; List (Some "srv");
           Add "nul" (String zero "x") None None None None "";
           Delete "ghost"; History 0; Get "deep"; Init] Posix.first_run)) /\
  (length
     (switches
        (Raw.perform_all
           [Add "deep" "/srv/deep" (Some Refusing.deep_name) None None None "";
            Add "DEEP" "/other" None None None None "";
            Switch "Deep"; Log "unknown"; List (Some "srv");
            Add "nul" (String zero "x") None None None None "";
            Delete "ghost"; History 0; Get "deep"; Init] Posix.first_run))
   <= 100)%nat.
Proof.
  assert (Hu : unique_names (environments Posix.first_run)) by constructor.
  assert (Hc : (length (switches Posix.first_run) <= 100)%nat) by (cbn; lia).
  split; [exact Hu|]. split; [exact Hc|].
  exact (store_invariants_kept _ Posix.first_run Hu Hc).
Defined.
